(** * image_converter: the conversion core of converter.js

    A shallow embedding of the client-side conversion pipeline
    ([convertImageFile], [dataURLToBlob], [canvasToBMP]) and the proofs of
    its byte-level and control-flow properties.

    JavaScript values are modelled as follows.
    - Integers that the code only adds, multiplies and divides under
      [Math.floor] (canvas dimensions, sizes, byte offsets) are [Z], and
      [Math.floor (a / 32)] is [Z.div]: in binary64 these operations are
      exact as long as the values stay below 2^53.
    - A byte buffer ([ArrayBuffer], [Uint8Array], the [data] of an
      [ImageData]) is a [list Z] of values in [0, 256).
    - A string is the list of its UTF-16 code units ([jsstring]).
    - A Number that may be fractional or not a number at all ([scale],
      [quality], the target dimensions) is a [number]: NaN, an infinity, or a
      finite value carried as the rational it denotes.
    - The browser (image decoder, canvas, canvas encoders, [atob],
      [decodeURIComponent]) is an interface, [Runtime], that the conversion
      code is parameterised by.

    The file has two parts: the definitions (the embedding of the code, the
    layouts the specification describes, and a small reference runtime to
    run the code on), then the theorems. *)

From Stdlib Require Import String Ascii DecimalString.
From Stdlib Require Import ZArith QArith Qround List Lia Bool.
Import ListNotations.
Local Open Scope Z_scope.

(** * Part I: definitions *)

(** ** Exceptions *)

Inductive exn : Type :=
| Error (message : string)
| TypeError
| RangeError
| URIError
| DOMException (name : string).

Inductive result (A : Type) : Type :=
| Ok (a : A)
| Throw (e : exn).
Arguments Ok {A} a.
Arguments Throw {A} e.

Definition rbind {A B} (r : result A) (f : A -> result B) : result B :=
  match r with
  | Ok a => f a
  | Throw e => Throw e
  end.

Definition obind {A B} (o : option A) (f : A -> option B) : option B :=
  match o with
  | Some a => f a
  | None => None
  end.

(** ** Strings *)

Module JSString.

Definition jsstring := list Z.

(** A literal: the code units of an ASCII string. *)
Definition js (s : string) : jsstring :=
  map (fun a => Z.of_nat (nat_of_ascii a)) (list_ascii_of_string s).

Definition eqb (s t : jsstring) : bool :=
  if list_eq_dec Z.eq_dec s t then true else false.

Fixpoint startsWith (p s : jsstring) : bool :=
  match p, s with
  | [], _ => true
  | _ :: _, [] => false
  | a :: p', b :: s' => (a =? b) && startsWith p' s'
  end.

(** [s.indexOf(p)] counted from position [i] of the whole string. *)
Fixpoint indexOf_from (p s : jsstring) (i : Z) : Z :=
  if startsWith p s then i
  else match s with
       | [] => -1
       | _ :: r => indexOf_from p r (i + 1)
       end.

Definition indexOf (s p : jsstring) : Z := indexOf_from p s 0.

(** [s.split(sep)] for a separator of one code unit. *)
Fixpoint split (s : jsstring) (sep : Z) : list jsstring :=
  match s with
  | [] => [[]]
  | c :: r =>
      if c =? sep then [] :: split r sep
      else match split r sep with
           | [] => [[c]]
           | h :: t => (c :: h) :: t
           end
  end.

(** [a[i]]: [None] is [undefined]. *)
Definition index {A} (a : list A) (i : Z) : option A :=
  if i <? 0 then None else nth_error a (Z.to_nat i).

(** ToString of a value that is a string or [undefined]. *)
Definition ToString (v : option jsstring) : jsstring :=
  match v with
  | Some s => s
  | None => js "undefined"
  end.

Definition comma : Z := 44.
Definition colon : Z := 58.
Definition semicolon : Z := 59.

End JSString.
Export JSString.

(** ** Numbers *)

Module JSNumber.

Inductive number : Type :=
| NaN
| Infinity (negative : bool)
| Finite (q : Q).

Definition of_Z (n : Z) : number := Finite (inject_Z n).

Definition is_NaN (x : number) : bool :=
  match x with
  | NaN => true
  | _ => false
  end.

Definition Qsign_negative (q : Q) : bool := (Qnum q <? 0)%Z.
Definition Qis_zero (q : Q) : bool := (Qnum q =? 0)%Z.
Definition Qleb (a b : Q) : bool := Qle_bool a b.

(** [x * y].  The product of two finite values is the exact rational
    product handed to [fl], the rounding to the nearest binary64 value
    (an infinity on overflow), which belongs to the runtime. *)
Definition mul (fl : Q -> number) (x y : number) : number :=
  match x, y with
  | NaN, _ | _, NaN => NaN
  | Infinity s, Infinity t => Infinity (xorb s t)
  | Infinity s, Finite q | Finite q, Infinity s =>
      if Qis_zero q then NaN else Infinity (xorb s (Qsign_negative q))
  | Finite a, Finite b => fl (a * b)%Q
  end.

(** [Math.round(x)]: the nearest integer, a tie going towards +Infinity. *)
Definition Math_round (x : number) : number :=
  match x with
  | Finite q => of_Z (Qfloor (q + (1 # 2))%Q)
  | _ => x
  end.

(** [Math.max(x, y)]: NaN as soon as one argument is NaN. *)
Definition Math_max (x y : number) : number :=
  match x, y with
  | NaN, _ | _, NaN => NaN
  | Infinity false, _ | _, Infinity false => Infinity false
  | Infinity true, z | z, Infinity true => z
  | Finite a, Finite b => if Qleb a b then Finite b else Finite a
  end.

(** [Math.min(x, y)]: NaN as soon as one argument is NaN. *)
Definition Math_min (x y : number) : number :=
  match x, y with
  | NaN, _ | _, NaN => NaN
  | Infinity true, _ | _, Infinity true => Infinity true
  | Infinity false, z | z, Infinity false => z
  | Finite a, Finite b => if Qleb a b then Finite a else Finite b
  end.

(** [x / y], the quotient of two finite values rounded by [fl]. *)
Definition div (fl : Q -> number) (x y : number) : number :=
  match x, y with
  | NaN, _ | _, NaN => NaN
  | Infinity _, Infinity _ => NaN
  | Infinity s, Finite q => Infinity (xorb s (Qsign_negative q))
  | Finite _, Infinity _ => Finite 0
  | Finite a, Finite b =>
      if Qis_zero b
      then if Qis_zero a then NaN else Infinity (Qsign_negative a)
      else fl (a / b)%Q
  end.

(** [x <= y]; false when an argument is NaN. *)
Definition leb (x y : number) : bool :=
  match x, y with
  | NaN, _ | _, NaN => false
  | Infinity true, _ => true
  | _, Infinity false => true
  | Infinity false, _ => false
  | _, Infinity true => false
  | Finite a, Finite b => Qleb a b
  end.

Definition Qis_integer (q : Q) : bool := Qeq_bool q (inject_Z (Qfloor q)).

(** The decimal digits of an integer, with a minus sign if negative. *)
Definition decimal (n : Z) : jsstring := js (NilZero.string_of_int (Z.to_int n)).

(** ToString, as a template literal applies it.  A finite number prints
    as the shortest digits that read back as the same binary64 value: for
    an integer of magnitude below 2^53 these are its decimal digits, its
    neighbours being integers too; the digits of any other finite value
    are the runtime's ([other]). *)
Definition toString (other : Q -> jsstring) (x : number) : jsstring :=
  match x with
  | NaN => js "NaN"
  | Infinity false => js "Infinity"
  | Infinity true => js "-Infinity"
  | Finite q =>
      if Qis_integer q && (Z.abs (Qfloor q) <? 2 ^ 53)
      then decimal (Qfloor q)
      else other q
  end.

End JSNumber.
Export JSNumber.

(** ** ArrayBuffer and DataView *)

Module DataView.

(** [new ArrayBuffer(n)]: [n] zero bytes; a negative length is a
    RangeError.  No limit is set on the size: what an engine can allocate
    is its own affair. *)
Definition ArrayBuffer (n : Z) : option (list Z) :=
  if n <? 0 then None else Some (repeat 0 (Z.to_nat n)).

Definition byteLength (b : list Z) : Z := Z.of_nat (length b).

(** The [n] low-order bytes of [v], least significant first.  With [Z]'s
    floored division this is the two's complement image of a negative [v],
    so it serves ToUint8, ToUint16, ToUint32 and ToInt32 alike. *)
Fixpoint le_bytes (n : nat) (v : Z) : list Z :=
  match n with
  | O => []
  | S k => v mod 256 :: le_bytes k (v / 256)
  end.

Definition ordered (littleEndian : bool) (bs : list Z) : list Z :=
  if littleEndian then bs else rev bs.

(** SetViewValue: the whole access must lie inside the buffer, otherwise a
    RangeError is thrown and nothing is written. *)
Definition store (off : Z) (bs : list Z) (b : list Z) : option (list Z) :=
  if (0 <=? off) && (off + Z.of_nat (length bs) <=? byteLength b) then
    Some (firstn (Z.to_nat off) b ++ bs ++ skipn (Z.to_nat off + length bs) b)
  else None.

Definition setUint8 (off v : Z) : list Z -> option (list Z) :=
  store off (le_bytes 1 v).
Definition setUint16 (off v : Z) (littleEndian : bool) : list Z -> option (list Z) :=
  store off (ordered littleEndian (le_bytes 2 v)).
Definition setUint32 (off v : Z) (littleEndian : bool) : list Z -> option (list Z) :=
  store off (ordered littleEndian (le_bytes 4 v)).
Definition setInt32 (off v : Z) (littleEndian : bool) : list Z -> option (list Z) :=
  store off (ordered littleEndian (le_bytes 4 v)).

(** The unsigned value of a little-endian byte sequence. *)
Fixpoint le_value (bs : list Z) : Z :=
  match bs with
  | [] => 0
  | b :: r => b + 256 * le_value r
  end.

Definition slice (off : Z) (n : nat) (b : list Z) : option (list Z) :=
  if (0 <=? off) && (off + Z.of_nat n <=? byteLength b) then
    Some (firstn n (skipn (Z.to_nat off) b))
  else None.

Definition getUint32 (off : Z) (littleEndian : bool) (b : list Z) : option Z :=
  obind (slice off 4 b) (fun bs => Some (le_value (ordered littleEndian bs))).

(** A 32-bit pattern read as a signed integer. *)
Definition signed32 (u : Z) : Z := if u <? 2 ^ 31 then u else u - 2 ^ 32.

Definition getInt32 (off : Z) (littleEndian : bool) (b : list Z) : option Z :=
  obind (getUint32 off littleEndian b) (fun u => Some (signed32 u)).

End DataView.

(** ** Sequential writers

    [canvasToBMP] writes through a [DataView] while advancing a local
    cursor ([offset], then [p]).  A command transforms the pair of the
    buffer and the cursor, or throws. *)

Module Writer.
Import DataView.

Definition cmd := list Z * Z -> option (list Z * Z).

Definition skip : cmd := fun s => Some s.

Definition seq (c1 c2 : cmd) : cmd := fun s => obind (c1 s) c2.

(** [access(cursor, ...); cursor += n] *)
Definition advancing (n : Z) (access : Z -> list Z -> option (list Z)) : cmd :=
  fun s => obind (access (snd s) (fst s)) (fun b' => Some (b', snd s + n)).

(** [for (let i = from; i < from + n; i++) body(i)] *)
Fixpoint for_up (from : Z) (n : nat) (body : Z -> cmd) : cmd :=
  match n with
  | O => skip
  | S k => seq (body from) (for_up (from + 1) k body)
  end.

(** [for (let i = n - 1; i >= 0; i--) body(i)] *)
Fixpoint for_down (n : nat) (body : Z -> cmd) : cmd :=
  match n with
  | O => skip
  | S k => seq (body (Z.of_nat k)) (for_down k body)
  end.

(** [c] writes the bytes [bs] at the cursor and moves the cursor past
    them, leaving the rest of the buffer as it was. *)
Definition writes (c : cmd) (bs : list Z) : Prop :=
  forall pre mid post,
    length mid = length bs ->
    c (pre ++ mid ++ post, Z.of_nat (length pre))
    = Some (pre ++ bs ++ post, Z.of_nat (length pre + length bs)).

End Writer.

Declare Scope cmd_scope.
Delimit Scope cmd_scope with cmd.
Notation "c1 ;; c2" := (Writer.seq c1 c2)
  (at level 61, right associativity) : cmd_scope.

(** ** Blobs, images, canvases and the browser interface *)

Inductive BlobPart : Type :=
| BufferPart (bytes : list Z)
| StringPart (text : jsstring).

(** A blob: its parts and its [type] as the constructor stored it.  Where
    the code passes a literal type in lower case ('image/bmp',
    'image/svg+xml') the constructor stores that literal. *)
Record Blob : Type := { blob_parts : list BlobPart; blob_type : jsstring }.

Definition File := list Z.

Record Image : Type :=
  { naturalWidth : Z; naturalHeight : Z; image_data : list Z }.

(** A canvas after drawing: its dimensions and the [data] that
    [getContext('2d').getImageData(0, 0, width, height)] returns. *)
Record Canvas : Type :=
  { canvas_width : Z; canvas_height : Z; canvas_data : list Z }.

(** What [canvas.toBlob(callback, type, quality)] does: it throws (for
    instance because the method does not exist), or it invokes the
    callback with a blob or with [null]. *)
Inductive toBlob_outcome : Type :=
| toBlob_throws (e : exn)
| toBlob_callback (blob : option Blob).

(** The browser, as the conversion code uses it.
    - [fl]: the rounding of an exact product to the nearest binary64 value.
    - [Number_toString_other]: the text of a finite number that is not an
      integer of magnitude below 2^53.
    - [decode_image]: what [new Image()] makes of the file once its [src]
      is set ([None]: [onerror] fires).
    - [drawImage]: the canvas obtained by creating one, assigning the two
      dimensions to it, clearing it and drawing the image at that size.
    - [toBlob], [toDataURL]: the encoders of the canvas.
    - [atob], [decodeURIComponent]: the two decoders of payloads. *)
Record Runtime : Type :=
  { fl : Q -> number;
    Number_toString_other : Q -> jsstring;
    decode_image : File -> option Image;
    drawImage : Image -> number -> number -> Canvas;
    toBlob : Canvas -> jsstring -> option number -> toBlob_outcome;
    toDataURL : Canvas -> jsstring -> number -> result jsstring;
    atob : jsstring -> result jsstring;
    decodeURIComponent : jsstring -> result jsstring }.

(** The settled state of the promise [convertImageFile] returns. *)
Inductive outcome : Type :=
| Resolved (blob : Blob)
| Rejected (e : exn).

(** The calls made to the canvas encoders, with the type and the quality
    argument each one carries ([None]: [undefined]). *)
Inductive call : Type :=
| Call_toBlob (mime : jsstring) (quality : option number)
| Call_toDataURL (mime : jsstring) (quality : number).

Record run : Type := { calls : list call; settled : outcome }.

(** ** dataURLToBlob *)

(** [new Uint8Array(n)] *)
Definition Uint8Array (n : nat) : list Z := repeat 0 n.

(** [s.charCodeAt(i)]: [None] is NaN. *)
Definition charCodeAt (s : jsstring) (i : nat) : option Z := nth_error s i.

(** ToUint8 of a code unit or NaN. *)
Definition ToUint8 (v : option Z) : Z :=
  match v with
  | Some n => n mod 256
  | None => 0
  end.

(** [bytes[i] = v] on a [Uint8Array]: a write past the end is ignored. *)
Definition typed_set (bytes : list Z) (i : nat) (v : option Z) : list Z :=
  if (i <? length bytes)%nat
  then firstn i bytes ++ ToUint8 v :: skipn (S i) bytes
  else bytes.

(** [for (let i = i0; i < i0 + n; i++) bytes[i] = s.charCodeAt(i)] *)
Fixpoint fill_from (s : jsstring) (i n : nat) (bytes : list Z) : list Z :=
  match n with
  | O => bytes
  | S k => fill_from s (S i) k (typed_set bytes i (charCodeAt s i))
  end.

Definition string_bytes (s : jsstring) : list Z :=
  fill_from s 0 (length s) (Uint8Array (length s)).

(** The [type] option of a blob: an [undefined] one is the empty string. *)
Definition blob_type_option (t : option jsstring) : jsstring :=
  match t with
  | Some s => s
  | None => []
  end.

(** The type [new Blob(parts, {type})] gives the blob: the empty string if
    the option has a character outside U+0020 to U+007E, and the option in
    ASCII lower case otherwise. *)
Definition printable (c : Z) : bool := (0x20 <=? c) && (c <=? 0x7E).

Definition ASCII_lowercase (c : Z) : Z :=
  if (0x41 <=? c) && (c <=? 0x5A) then c + 0x20 else c.

Definition Blob_type (t : jsstring) : jsstring :=
  if forallb printable t then map ASCII_lowercase t else [].

(** A property access on [undefined] throws a TypeError. *)
Definition defined {A} (v : option A) : result A :=
  match v with
  | Some a => Ok a
  | None => Throw TypeError
  end.

Definition dataURLToBlob (rt : Runtime) (dataURL : jsstring) : result Blob :=
  let parts := split dataURL comma in
  let meta := index parts 0 in
  let raw := index parts 1 in
  rbind (defined meta) (fun meta =>
  let isBase64 := 0 <=? indexOf meta (js "base64") in
  rbind (defined (index (split meta colon) 1)) (fun tagged =>
  let contentType := index (split tagged semicolon) 0 in
  rbind (if isBase64
         then rbind (atob rt (ToString raw)) (fun binary => Ok (string_bytes binary))
         else rbind (decodeURIComponent rt (ToString raw))
                    (fun decoded => Ok (string_bytes decoded)))
        (fun bytes =>
  Ok {| blob_parts := [BufferPart bytes];
        blob_type := Blob_type (blob_type_option contentType) |}))).

(** ** canvasToBMP *)

Module BMP.
Import DataView Writer.
Local Open Scope cmd_scope.

(** [pixels[i]] as [setUint8] stores it: [undefined], read outside the
    array, is stored as 0. *)
Definition channel (pixels : list Z) (i : Z) : Z :=
  match index pixels i with
  | Some v => v
  | None => 0
  end.

(** [dv.setUint8(offset, v); offset++], and likewise for the wider fields
    (all written with [littleEndian = true]). *)
Definition put8 (v : Z) : cmd := advancing 1 (fun off => setUint8 off v).
Definition put16 (v : Z) : cmd := advancing 2 (fun off => setUint16 off v true).
Definition put32 (v : Z) : cmd := advancing 4 (fun off => setUint32 off v true).
Definition puti32 (v : Z) : cmd := advancing 4 (fun off => setInt32 off v true).

Definition rowStride (width : Z) : Z := (24 * width + 31) / 32 * 4.

Definition write_headers (width height fileSize pixelArraySize : Z) : cmd :=
  (* BITMAPFILEHEADER (14 bytes) *)
  put8 0x42 ;; put8 0x4D ;;
  put32 fileSize ;;
  put16 0 ;;
  put16 0 ;;
  put32 54 ;;
  (* BITMAPINFOHEADER (40 bytes) *)
  put32 40 ;;
  puti32 width ;;
  puti32 height ;;
  put16 1 ;;
  put16 24 ;;
  put32 0 ;;
  put32 pixelArraySize ;;
  puti32 2835 ;;
  puti32 2835 ;;
  put32 0 ;;
  put32 0.

Definition write_pixels (pixels : list Z) (width height padding : Z) : cmd :=
  for_down (Z.to_nat height) (fun y =>
    for_up 0 (Z.to_nat width) (fun x =>
      let i := (y * width + x) * 4 in
      let r := channel pixels i in
      let g := channel pixels (i + 1) in
      let b := channel pixels (i + 2) in
      put8 b ;; put8 g ;; put8 r) ;;
    for_up 0 (Z.to_nat padding) (fun k => put8 0)).

(** [ctx.getImageData(0, 0, width, height).data]: a rectangle without
    pixels is an IndexSizeError. *)
Definition getImageData (canvas : Canvas) : result (list Z) :=
  if (canvas_width canvas =? 0) || (canvas_height canvas =? 0)
  then Throw (DOMException "IndexSizeError")
  else Ok (canvas_data canvas).

(** The buffer and the view throw a RangeError ([None]). *)
Definition or_RangeError {A} (o : option A) : result A :=
  match o with
  | Some a => Ok a
  | None => Throw RangeError
  end.

Definition canvasToBMP (canvas : Canvas) : result Blob :=
  let width := canvas_width canvas in
  let height := canvas_height canvas in
  rbind (getImageData canvas) (fun pixels =>
  let rowStride := rowStride width in
  let pixelArraySize := rowStride * height in
  let fileSize := 54 + pixelArraySize in
  rbind (or_RangeError (ArrayBuffer fileSize)) (fun buffer =>
  rbind (or_RangeError
           (write_headers width height fileSize pixelArraySize (buffer, 0)))
        (fun s =>
  let padding := rowStride - width * 3 in
  rbind (or_RangeError (write_pixels pixels width height padding (fst s, 54)))
        (fun s =>
  Ok {| blob_parts := [BufferPart (fst s)]; blob_type := js "image/bmp" |})))).

End BMP.
Export BMP.

(** ** convertImageFile *)

Definition loadImageFromFile (rt : Runtime) (file : File) : result Image :=
  match decode_image rt file with
  | Some img => Ok img
  | None => Throw (Error "Failed to load image")
  end.

(** [Math.max(1, Math.round(natural * scale))] *)
Definition target_dimension (rt : Runtime) (natural : Z) (scale : number) : number :=
  Math_max (of_Z 1) (Math_round (mul (fl rt) (of_Z natural) scale)).

(** The scale the convert button passes on:
    [Math.max(0.2, Math.min(2, Number(scaleRange.value) / 100))], where
    [reading] is [Number(scaleRange.value)]. *)
Definition button_scale (rt : Runtime) (reading : number) : number :=
  Math_max (Finite (2 # 10))
    (Math_min (of_Z 2) (div (fl rt) reading (of_Z 100))).

(** A double-quoted piece of a template literal. *)
Definition quoted (s : jsstring) : jsstring := [34] ++ s ++ [34].

(** The template literal of the SVG wrapper. *)
Definition svg_template (rt : Runtime) (width height : number) (pngData : jsstring)
  : jsstring :=
  let w := toString (Number_toString_other rt) width in
  let h := toString (Number_toString_other rt) height in
  js "<svg xmlns=" ++ quoted (js "http://www.w3.org/2000/svg")
  ++ js " width=" ++ quoted w
  ++ js " height=" ++ quoted h
  ++ js "><image href=" ++ quoted pngData
  ++ js " width=" ++ quoted w
  ++ js " height=" ++ quoted h
  ++ js "/></svg>".

(** A parameter with a default value: the default replaces [undefined]. *)
Definition default_to (d : number) (v : option number) : number :=
  match v with
  | Some x => x
  | None => d
  end.

Definition logged (c : call) (r : run) : run :=
  {| calls := c :: calls r; settled := settled r |}.

Definition settle (o : outcome) : run := {| calls := []; settled := o |}.

Definition settle_result (r : result Blob) : outcome :=
  match r with
  | Ok blob => Resolved blob
  | Throw e => Rejected e
  end.

Definition convertImageFile (rt : Runtime) (file : File) (outType : jsstring)
  (quality_arg scale_arg : option number) : run :=
  let quality := default_to (Finite (8 # 10)) quality_arg in
  let scale := default_to (of_Z 1) scale_arg in
  match loadImageFromFile rt file with
  | Throw e => settle (Rejected e)
  | Ok img =>
      (* scaled dimensions while preserving aspect ratio *)
      let width := target_dimension rt (naturalWidth img) scale in
      let height := target_dimension rt (naturalHeight img) scale in
      let canvas := drawImage rt img width height in
      if eqb outType (js "image/svg+xml") then
        logged (Call_toDataURL (js "image/png") quality)
          (settle
             match toDataURL rt canvas (js "image/png") quality with
             | Throw e => Rejected e
             | Ok pngData =>
                 let svg := svg_template rt width height pngData in
                 Resolved {| blob_parts := [StringPart svg];
                             blob_type := js "image/svg+xml" |}
             end)
      else if eqb outType (js "image/bmp") || eqb outType (js "image/x-ms-bmp") then
        settle (settle_result (canvasToBMP canvas))
      else
        (* For PNG, JPEG, WEBP use toBlob where supported *)
        let mime := outType in
        let native_quality :=
          if eqb mime (js "image/png") then None else Some quality in
        logged (Call_toBlob mime native_quality)
          match toBlob rt canvas mime native_quality with
          | toBlob_callback (Some blob) => settle (Resolved blob)
          | toBlob_callback None =>
              settle (Rejected (Error "Conversion to blob failed."))
          | toBlob_throws e =>
              (* fallback: use dataURL and convert *)
              logged (Call_toDataURL mime quality)
                (settle
                   (settle_result
                      (rbind (toDataURL rt canvas mime quality)
                             (dataURLToBlob rt))))
          end
  end.

(** ** The layouts the specification describes *)

Module Layout.

Definition is_byte (v : Z) : Prop := 0 <= v < 256.

(** An RGBA buffer of positive width and height: four bytes per pixel,
    row by row from the top. *)
Definition RGBA_buffer (c : Canvas) : Prop :=
  0 < canvas_width c /\ 0 < canvas_height c /\
  Z.of_nat (length (canvas_data c)) = 4 * canvas_width c * canvas_height c /\
  Forall is_byte (canvas_data c).

(** No browser makes a canvas of more than 32767 pixels in either
    direction (most stop well below); a canvas asked to be larger has no
    bitmap to draw on or to read. *)
Definition canvas_limit : Z := 32767.

Definition within_canvas_limits (c : Canvas) : Prop :=
  canvas_width c <= canvas_limit /\ canvas_height c <= canvas_limit.

(** Little-endian fields of 16 and 32 bits.  A signed field holds the
    two's complement of its value. *)
Definition u16le (v : Z) : list Z := [v mod 256; v / 256 mod 256].
Definition u32le (v : Z) : list Z :=
  [v mod 256; v / 256 mod 256; v / 65536 mod 256; v / 16777216 mod 256].
Definition i32le (v : Z) : list Z := u32le (if v <? 0 then v + 2 ^ 32 else v).

Definition stride (w : Z) : Z := (24 * w + 31) / 32 * 4.

Definition file_header (w h : Z) : list Z :=
  [0x42; 0x4D] ++ u32le (54 + stride w * h) ++ u16le 0 ++ u16le 0 ++ u32le 54.

Definition info_header (w h : Z) : list Z :=
  u32le 40 ++ i32le w ++ i32le h ++ u16le 1 ++ u16le 24 ++ u32le 0
  ++ u32le (stride w * h) ++ i32le 2835 ++ i32le 2835 ++ u32le 0 ++ u32le 0.

(** The channels of the pixel in column [x] of row [y] (row 0 on top). *)
Definition red (c : Canvas) (x y : nat) : Z :=
  nth (4 * (y * Z.to_nat (canvas_width c) + x)) (canvas_data c) 0.
Definition green (c : Canvas) (x y : nat) : Z :=
  nth (4 * (y * Z.to_nat (canvas_width c) + x) + 1) (canvas_data c) 0.
Definition blue (c : Canvas) (x y : nat) : Z :=
  nth (4 * (y * Z.to_nat (canvas_width c) + x) + 2) (canvas_data c) 0.

Definition bgr (c : Canvas) (y x : nat) : list Z := [blue c x y; green c x y; red c x y].

(** One row of the pixel array: the pixels from left to right, then the
    zero bytes that pad the row to its stride. *)
Definition pixel_row (c : Canvas) (y : nat) : list Z :=
  flat_map (bgr c y) (List.seq 0 (Z.to_nat (canvas_width c)))
  ++ repeat 0 (Z.to_nat (stride (canvas_width c) - canvas_width c * 3)).

(** The pixel array: the rows from the last one to the first. *)
Definition pixel_array (c : Canvas) : list Z :=
  flat_map (pixel_row c) (rev (List.seq 0 (Z.to_nat (canvas_height c)))).

(** A serialized document: a root element with attributes and leaf
    elements inside it, written without any white space between them; a
    leaf closes itself. *)
Record element : Type :=
  { tag : jsstring; attributes : list (jsstring * jsstring) }.

Record document : Type := { root : element; embedded : list element }.








(** The native raster formats are the types that are neither the vector
    wrapper nor the bitmap. *)
Definition native_format (outType : jsstring) : bool :=
  negb (eqb outType (js "image/svg+xml"))
  && negb (eqb outType (js "image/bmp"))
  && negb (eqb outType (js "image/x-ms-bmp")).

(** The fallback of the native path taken on its own. *)
Definition fallback (rt : Runtime) (canvas : Canvas) (mime : jsstring)
  (quality : number) : result Blob :=
  rbind (toDataURL rt canvas mime quality) (dataURLToBlob rt).

Definition throws {A} (r : result A) : Prop :=
  match r with
  | Ok _ => False
  | Throw _ => True
  end.

Definition rejected (r : run) : Prop :=
  match settled r with
  | Resolved _ => False
  | Rejected _ => True
  end.

(** A call that hands a quality value to an encoder. *)
Definition passes_quality (c : call) : bool :=
  match c with
  | Call_toBlob _ (Some _) => true
  | Call_toBlob _ None => false
  | Call_toDataURL _ _ => true
  end.

Definition payload (r : run) : option (list BlobPart) :=
  match settled r with
  | Resolved blob => Some (blob_parts blob)
  | Rejected _ => None
  end.

(** The canvas with every value of its data reduced to a byte. *)
Definition with_byte_data (c : Canvas) : Canvas :=
  {| canvas_width := canvas_width c;
     canvas_height := canvas_height c;
     canvas_data := map (fun v => v mod 256) (canvas_data c) |}.

(** The parts of an embedded-data string as [dataURLToBlob] reads them:
    the text before the first comma; the payload, which is the text between
    the first comma and the second one, and the text "undefined" when there
    is no comma; the declared type, which is the text that follows the
    first colon of the first part, up to the next colon or semicolon (none
    when that part has no colon; the empty string when nothing is
    declared). *)
Definition meta_of (dataURL : jsstring) : jsstring := hd [] (split dataURL comma).

Definition payload_of (dataURL : jsstring) : jsstring :=
  ToString (index (split dataURL comma) 1).

Definition declared_type (meta : jsstring) : option jsstring :=
  match index (split meta colon) 1 with
  | Some tagged => Some (hd [] (split tagged semicolon))
  | None => None
  end.

Definition is_base64 (meta : jsstring) : bool := 0 <=? indexOf meta (js "base64").

(** The decoder of the runtime that the payload goes through. *)
Definition decoder (rt : Runtime) (meta : jsstring) : jsstring -> result jsstring :=
  if is_base64 meta then atob rt else decodeURIComponent rt.

(** A code unit reduced to a byte. *)
Definition low_byte (c : Z) : Z := c mod 256.






(** A type in lower case, of characters from U+0020 to U+007E. *)
Definition plain_type (t : jsstring) : Prop :=
  forall c, In c t -> 0x20 <= c <= 0x7E /\ ~ (0x41 <= c <= 0x5A).




(** A renderer of data strings that, for PNG, pays no attention to the
    quality it is given, as the standard has it for a lossless type. *)
Definition PNG_ignores_quality (rt : Runtime) : Prop :=
  forall canvas q q',
    toDataURL rt canvas (js "image/png") q
    = toDataURL rt canvas (js "image/png") q'.


End Layout.
Export Layout.

(** ** A reference runtime

    Executable stand-ins for the browser, to run the conversion on
    concrete inputs: [atob] and [decodeURIComponent] follow their
    standards; the image codec is a toy one (a file is its width, its
    height and its RGBA bytes; an encoder emits the canvas bytes, after the
    quality when it is given one). *)

Module Reference.

Definition is_whitespace (c : Z) : bool :=
  (c =? 9) || (c =? 10) || (c =? 12) || (c =? 13) || (c =? 32).

(** The value of a character of the standard base64 alphabet. *)
Definition base64_value (c : Z) : option Z :=
  if (65 <=? c) && (c <=? 90) then Some (c - 65)
  else if (97 <=? c) && (c <=? 122) then Some (c - 71)
  else if (48 <=? c) && (c <=? 57) then Some (c + 4)
  else if c =? 43 then Some 62
  else if c =? 47 then Some 63
  else None.

Fixpoint base64_values (s : jsstring) : option (list Z) :=
  match s with
  | [] => Some []
  | c :: r =>
      obind (base64_value c) (fun v =>
      obind (base64_values r) (fun vs => Some (v :: vs)))
  end.

Fixpoint base64_groups (v : list Z) : list Z :=
  match v with
  | a :: b :: c :: d :: r =>
      let n := ((a * 64 + b) * 64 + c) * 64 + d in
      n / 65536 :: n / 256 mod 256 :: n mod 256 :: base64_groups r
  | [a; b; c] =>
      let n := ((a * 64 + b) * 64 + c) / 4 in
      [n / 256; n mod 256]
  | [a; b] => [(a * 64 + b) / 16]
  | _ => []
  end.

Definition strip_padding (s : jsstring) : jsstring :=
  if (length s mod 4 =? 0)%nat then
    match rev s with
    | 61 :: 61 :: r => rev r
    | 61 :: r => rev r
    | _ => s
    end
  else s.

(** [atob]: forgiving-base64 decode. *)
Definition base64_decode (s : jsstring) : result jsstring :=
  let data := strip_padding (filter (fun c => negb (is_whitespace c)) s) in
  if (length data mod 4 =? 1)%nat then Throw (DOMException "InvalidCharacterError")
  else match base64_values data with
       | None => Throw (DOMException "InvalidCharacterError")
       | Some vs => Ok (base64_groups vs)
       end.

Definition base64_digit (v : Z) : Z :=
  if v <? 26 then v + 65
  else if v <? 52 then v + 71
  else if v <? 62 then v - 4
  else if v =? 62 then 43
  else 47.

(** Base64 with padding, as [toDataURL] writes it. *)
Fixpoint base64_encode (bs : list Z) : jsstring :=
  match bs with
  | a :: b :: c :: r =>
      let n := (a * 256 + b) * 256 + c in
      base64_digit (n / 262144) :: base64_digit (n / 4096 mod 64)
      :: base64_digit (n / 64 mod 64) :: base64_digit (n mod 64)
      :: base64_encode r
  | [a; b] =>
      let n := (a * 256 + b) * 4 in
      [base64_digit (n / 4096); base64_digit (n / 64 mod 64);
       base64_digit (n mod 64); 61]
  | [a] =>
      let n := a * 16 in
      [base64_digit (n / 64); base64_digit (n mod 64); 61; 61]
  | [] => []
  end.

Definition hex_value (c : Z) : option Z :=
  if (48 <=? c) && (c <=? 57) then Some (c - 48)
  else if (65 <=? c) && (c <=? 70) then Some (c - 55)
  else if (97 <=? c) && (c <=? 102) then Some (c - 87)
  else None.

(** [%XY] at the head of a string: the octet and the rest. *)
Definition escaped_octet (s : jsstring) : option (Z * jsstring) :=
  match s with
  | 37 :: x :: y :: r =>
      obind (hex_value x) (fun hi =>
      obind (hex_value y) (fun lo => Some (hi * 16 + lo, r)))
  | _ => None
  end.

(** [n] escaped continuation octets (10xxxxxx), folded into [acc]. *)
Fixpoint continuation (n : nat) (acc : Z) (s : jsstring) : option (Z * jsstring) :=
  match n with
  | O => Some (acc, s)
  | S k =>
      obind (escaped_octet s) (fun '(b, r) =>
      if (128 <=? b) && (b <? 192) then continuation k (acc * 64 + b mod 64) r
      else None)
  end.

(** The UTF-16 code units of a code point. *)
Definition utf16 (cp : Z) : jsstring :=
  if cp <? 65536 then [cp]
  else [55296 + (cp - 65536) / 1024; 56320 + (cp - 65536) mod 1024].

(** One step of decoding at an escape whose first octet is [b]. *)
Definition decode_escape (b : Z) (r : jsstring) : option (jsstring * jsstring) :=
  if b <? 128 then Some ([b], r)
  else if (194 <=? b) && (b <? 224) then
    obind (continuation 1 (b mod 32) r) (fun '(cp, r') => Some (utf16 cp, r'))
  else if (224 <=? b) && (b <? 240) then
    obind (continuation 2 (b mod 16) r) (fun '(cp, r') =>
    if (2048 <=? cp) && negb ((55296 <=? cp) && (cp <? 57344))
    then Some (utf16 cp, r') else None)
  else if (240 <=? b) && (b <? 245) then
    obind (continuation 3 (b mod 8) r) (fun '(cp, r') =>
    if (65536 <=? cp) && (cp <? 1114112) then Some (utf16 cp, r') else None)
  else None.

Fixpoint decode_units (fuel : nat) (s : jsstring) : result jsstring :=
  match fuel with
  | O => Ok []
  | S k =>
      match s with
      | [] => Ok []
      | c :: r =>
          if c =? 37 then
            match obind (escaped_octet s) (fun '(b, r') => decode_escape b r') with
            | None => Throw URIError
            | Some (units, r') =>
                rbind (decode_units k r') (fun rest => Ok (units ++ rest))
            end
          else rbind (decode_units k r) (fun rest => Ok (c :: rest))
      end
  end.

(** [decodeURIComponent]: every escape sequence is replaced by the
    character whose UTF-8 encoding it spells; a malformed one is a
    URIError. *)
Definition percent_decode (s : jsstring) : result jsstring :=
  decode_units (length s) s.

(** The toy decoder: width, height, then the RGBA bytes. *)
Definition toy_decode (file : File) : option Image :=
  match file with
  | w :: h :: data =>
      if (0 <? w) && (0 <? h) && (Z.of_nat (length data) =? 4 * w * h)
      then Some {| naturalWidth := w; naturalHeight := h; image_data := data |}
      else None
  | _ => None
  end.

(** The size a canvas takes when a dimension is assigned to it. *)
Definition canvas_size (n : number) : Z :=
  match n with
  | Finite q => if (0 <? Qfloor q) && (Qfloor q <? 2 ^ 31) then Qfloor q else 0
  | _ => 0
  end.

(** Nearest-neighbour resampling. *)
Definition nearest_neighbour (img : Image) (width height : number) : Canvas :=
  let w := canvas_size width in
  let h := canvas_size height in
  {| canvas_width := w;
     canvas_height := h;
     canvas_data :=
       flat_map (fun y =>
         flat_map (fun x =>
           let sx := Z.of_nat x * naturalWidth img / w in
           let sy := Z.of_nat y * naturalHeight img / h in
           firstn 4 (skipn (Z.to_nat (4 * (sy * naturalWidth img + sx)))
                       (image_data img)))
           (List.seq 0 (Z.to_nat w)))
         (List.seq 0 (Z.to_nat h)) |}.

Definition quality_byte (q : number) : Z :=
  match q with
  | Finite x => Qfloor (x * 100) mod 256
  | _ => 92
  end.

(** The toy encoder; a lossless type ignores the quality. *)
Definition encode (c : Canvas) (mime : jsstring) (quality : option number) : list Z :=
  match quality with
  | Some q => if eqb mime (js "image/png") then canvas_data c
              else quality_byte q :: canvas_data c
  | None => canvas_data c
  end.

Definition data_string (mime : jsstring) (bytes : list Z) : jsstring :=
  js "data:" ++ mime ++ js ";base64," ++ base64_encode bytes.

Definition exact (q : Q) : number := Finite q.

Definition digits_of_floor (q : Q) : jsstring := decimal (Qfloor q).

(** A browser with every feature. *)
Definition browser : Runtime :=
  {| fl := exact;
     Number_toString_other := digits_of_floor;
     decode_image := toy_decode;
     drawImage := nearest_neighbour;
     toBlob := fun c mime q =>
       toBlob_callback
         (Some {| blob_parts := [BufferPart (encode c mime q)]; blob_type := mime |});
     toDataURL := fun c mime q => Ok (data_string mime (encode c mime (Some q)));
     atob := base64_decode;
     decodeURIComponent := percent_decode |}.

(** A browser without [canvas.toBlob]. *)
Definition legacy_browser : Runtime :=
  {| fl := exact;
     Number_toString_other := digits_of_floor;
     decode_image := toy_decode;
     drawImage := nearest_neighbour;
     toBlob := fun _ _ _ => toBlob_throws TypeError;
     toDataURL := fun c mime q => Ok (data_string mime (encode c mime (Some q)));
     atob := base64_decode;
     decodeURIComponent := percent_decode |}.

(** A browser whose native encoder reports failure, with a working
    [toDataURL]. *)
Definition failing_encoder_browser : Runtime :=
  {| fl := exact;
     Number_toString_other := digits_of_floor;
     decode_image := toy_decode;
     drawImage := nearest_neighbour;
     toBlob := fun _ _ _ => toBlob_callback None;
     toDataURL := fun c mime q => Ok (data_string mime (encode c mime (Some q)));
     atob := base64_decode;
     decodeURIComponent := percent_decode |}.

(** A browser without [canvas.toBlob] whose [toDataURL] knows PNG only:
    as the standard asks, a type it does not support gives PNG data. *)
Definition png_only_browser : Runtime :=
  {| fl := exact;
     Number_toString_other := digits_of_floor;
     decode_image := toy_decode;
     drawImage := nearest_neighbour;
     toBlob := fun _ _ _ => toBlob_throws TypeError;
     toDataURL := fun c _ _ => Ok (data_string (js "image/png") (canvas_data c));
     atob := base64_decode;
     decodeURIComponent := percent_decode |}.

(** The 2 x 2 opaque image of the specification: red, green on top; blue,
    yellow below. *)
Definition four_pixels : list Z :=
  [255; 0; 0; 255;   0; 255; 0; 255;
   0; 0; 255; 255;   255; 255; 0; 255].

Definition four_pixel_canvas : Canvas :=
  {| canvas_width := 2; canvas_height := 2; canvas_data := four_pixels |}.

Definition four_pixel_file : File := 2 :: 2 :: four_pixels.

End Reference.

(** ** The page of converter.js: its handlers over the state of the page

    The state is made of the three variables of the script
    ([currentFile], [convertedBlob], [convertedURL]), the controls and the
    previews the handlers read and write, and what the browser keeps for
    the page: the object URLs that are live, the alerts shown, the
    downloads started and the conversions that have not settled yet.  The
    class of the drop area and the quality label are left out. *)

Module Page.

Definition slash : Z := 47.
Definition dot : Z := 46.
Definition bullet : jsstring := [8226].
Definition dash : jsstring := [8212].

(** [s.includes(p)] *)
Definition includes (s p : jsstring) : bool := 0 <=? indexOf s p.

(** A string is truthy unless it is empty. *)
Definition truthy (s : jsstring) : bool :=
  match s with
  | [] => false
  | _ :: _ => true
  end.

(** [[^/.]+$]: one or more characters other than '/' and '.', up to the
    end of the string. *)
Definition extension_body (t : jsstring) : bool :=
  truthy t && forallb (fun c => negb ((c =? slash) || (c =? dot))) t.

(** [s.replace(/\.[^/.]+$/, '')]: the leftmost match, which runs to the end
    of the string, is removed. *)
Fixpoint strip_extension (s : jsstring) : jsstring :=
  match s with
  | [] => []
  | c :: r =>
      if (c =? dot) && extension_body r then [] else c :: strip_extension r
  end.

Record UserFile : Type :=
  { file_name : jsstring; file_type : jsstring; file_bytes : File }.

Definition file_size (f : UserFile) : Z := Z.of_nat (length (file_bytes f)).

(** What the handlers take from the browser besides the [Runtime] of the
    conversion: the conversion of a string to a number, upper-casing, and
    the length of a text in UTF-8 (the size of a blob made of it).
    [bytesToSize] is the helper of converter.js; its logarithms and its
    rounding to two decimals are binary64 arithmetic and are not modelled. *)
Record Host : Type :=
  { runtime : Runtime;
    Number_of_string : jsstring -> number;
    toUpperCase : jsstring -> jsstring;
    utf8_length : jsstring -> Z;
    bytesToSize : Z -> jsstring }.

Definition part_size (h : Host) (p : BlobPart) : Z :=
  match p with
  | BufferPart bytes => Z.of_nat (length bytes)
  | StringPart text => utf8_length h text
  end.

(** [blob.size] *)
Definition blob_size (h : Host) (b : Blob) : Z :=
  fold_right (fun p n => part_size h p + n) 0 (blob_parts b).

(** [Math.max(0, Math.min(100, Number(qualityRange.value || 80))) / 100] *)
Definition button_quality (h : Host) (value : jsstring) : number :=
  let reading := if truthy value then Number_of_string h value else of_Z 80 in
  div (fl (runtime h))
    (Math_max (of_Z 0) (Math_min (of_Z 100) reading)) (of_Z 100).

(** The extension of the download:
    [value.includes('svg') ? 'svg' : (value.split('/')[1] || 'img')] *)
Definition download_extension (value : jsstring) : jsstring :=
  if includes value (js "svg") then js "svg"
  else match index (split value slash) 1 with
       | Some e => if truthy e then e else js "img"
       | None => js "img"
       end.

(** [(currentFile && currentFile.name)
     ? currentFile.name.replace(/\.[^/.]+$/, '') : 'converted'] *)
Definition download_name (current : option UserFile) : jsstring :=
  match current with
  | Some f =>
      if truthy (file_name f) then strip_extension (file_name f)
      else js "converted"
  | None => js "converted"
  end.

Definition download_filename (value : jsstring) (current : option UserFile)
  : jsstring :=
  download_name current ++ js "." ++ download_extension value.

(** The first item whose type begins with "image" decides: its file, if it
    has one, is handled, and the loop stops there. *)
Fixpoint pasted_file (items : list (jsstring * option UserFile))
  : option UserFile :=
  match items with
  | [] => None
  | (type, file) :: rest =>
      if indexOf type (js "image") =? 0 then file else pasted_file rest
  end.

(** An object URL is named by the number of its creation. *)
Definition url := nat.

Inductive object : Type :=
| FileObject (f : UserFile)
| BlobObject (b : Blob).

Inductive alert_message : Type :=
| Please_select_an_image
| Conversion_failed (e : exn).

(** A conversion under way: the arguments [convertImageFile] was called
    with. *)
Record Pending : Type :=
  { pending_file : UserFile;
    pending_outType : jsstring;
    pending_quality : number;
    pending_scale : number }.

Record Script : Type :=
  { currentFile : option UserFile;
    convertedBlob : option Blob;
    convertedURL : option url }.

Record Controls : Type :=
  { format_value : jsstring;
    quality_value : jsstring;
    scale_value : jsstring;
    convert_disabled : bool;
    convert_text : jsstring;
    download_disabled : bool }.

(** [None] as a source is the empty string. *)
Record Preview : Type :=
  { before_src : option url;
    before_onload : option url;
    before_info : jsstring;
    after_src : option url;
    after_info : jsstring;
    file_size_text : jsstring }.

Record Browser : Type :=
  { object_urls : list (url * object);
    next_url : url;
    alerts : list alert_message;
    downloads : list (jsstring * option url);
    pending : list Pending }.

Record State : Type :=
  { script : Script; controls : Controls; preview : Preview; browser : Browser }.

(** [URL.createObjectURL(o)] and [URL.revokeObjectURL(u)] *)
Definition createObjectURL (o : object) (b : Browser) : Browser :=
  {| object_urls := (next_url b, o) :: object_urls b;
     next_url := S (next_url b);
     alerts := alerts b;
     downloads := downloads b;
     pending := pending b |}.

Definition revokeObjectURL (u : url) (b : Browser) : Browser :=
  {| object_urls := filter (fun e => negb (fst e =? u)%nat) (object_urls b);
     next_url := next_url b;
     alerts := alerts b;
     downloads := downloads b;
     pending := pending b |}.

Definition alert (m : alert_message) (b : Browser) : Browser :=
  {| object_urls := object_urls b;
     next_url := next_url b;
     alerts := m :: alerts b;
     downloads := downloads b;
     pending := pending b |}.

Fixpoint object_of (u : url) (l : list (url * object)) : option object :=
  match l with
  | [] => None
  | (v, o) :: r => if (v =? u)%nat then Some o else object_of u r
  end.

Definition set_pending (p : list Pending) (b : Browser) : Browser :=
  {| object_urls := object_urls b;
     next_url := next_url b;
     alerts := alerts b;
     downloads := downloads b;
     pending := p |}.

(** The page once the script has run: the variables are null and
    [initUI] has disabled both buttons. *)
Definition loaded (c : Controls) (p : Preview) : State :=
  {| script := {| currentFile := None; convertedBlob := None; convertedURL := None |};
     controls := {| format_value := format_value c;
                    quality_value := quality_value c;
                    scale_value := scale_value c;
                    convert_disabled := true;
                    convert_text := convert_text c;
                    download_disabled := true |};
     preview := p;
     browser := {| object_urls := []; next_url := O; alerts := [];
                   downloads := []; pending := [] |} |}.

Definition handleFile (h : Host) (file : UserFile) (s : State) : State :=
  if negb (startsWith (js "image/") (file_type file)) then
    {| script := script s; controls := controls s; preview := preview s;
       browser := alert Please_select_an_image (browser s) |}
  else
    let objectUrl := next_url (browser s) in
    {| script := {| currentFile := Some file;
                    convertedBlob := None;
                    convertedURL := convertedURL (script s) |};
       controls := {| format_value := format_value (controls s);
                      quality_value := quality_value (controls s);
                      scale_value := scale_value (controls s);
                      convert_disabled := false;
                      convert_text := convert_text (controls s);
                      download_disabled := true |};
       preview := {| before_src := Some objectUrl;
                     before_onload := Some objectUrl;
                     before_info :=
                       file_type file ++ js " " ++ bullet ++ js " "
                       ++ bytesToSize h (file_size file);
                     after_src := None;
                     after_info := dash;
                     file_size_text :=
                       js "Before: " ++ bytesToSize h (file_size file)
                       ++ js " " ++ bullet ++ js " After: " ++ dash |};
       browser := createObjectURL (FileObject file) (browser s) |}.

(** The click on the convert button, up to the [await]:
    [convertImageFile] is entered and [loadImageFromFile] creates an object
    URL for the file as the source of its image; nothing revokes it. *)
Definition convert_click (h : Host) (s : State) : State :=
  match currentFile (script s) with
  | None => s
  | Some file =>
      let outType := format_value (controls s) in
      let quality := button_quality h (quality_value (controls s)) in
      let scale :=
        button_scale (runtime h) (Number_of_string h (scale_value (controls s))) in
      {| script := script s;
         controls := {| format_value := format_value (controls s);
                        quality_value := quality_value (controls s);
                        scale_value := scale_value (controls s);
                        convert_disabled := true;
                        convert_text := js "Converting...";
                        download_disabled := download_disabled (controls s) |};
         preview := preview s;
         browser :=
           set_pending
             (pending (browser s)
              ++ [{| pending_file := file; pending_outType := outType;
                     pending_quality := quality; pending_scale := scale |}])
             (createObjectURL (FileObject file) (browser s)) |}
  end.

(** [finally]: the convert button is usable again. *)
Definition finally_convert (s : State) : State :=
  {| script := script s;
     controls := {| format_value := format_value (controls s);
                    quality_value := quality_value (controls s);
                    scale_value := scale_value (controls s);
                    convert_disabled := false;
                    convert_text := js "Convert";
                    download_disabled := download_disabled (controls s) |};
     preview := preview s;
     browser := browser s |}.

Definition caught (e : exn) (s : State) : State :=
  {| script := script s; controls := controls s; preview := preview s;
     browser := alert (Conversion_failed e) (browser s) |}.

(** The rest of the [try] block once the conversion has given [blob]. *)
Definition converted (h : Host) (outType : jsstring) (blob : Blob) (s : State)
  : State :=
  let b1 :=
    match convertedURL (script s) with
    | Some old => revokeObjectURL old (browser s)
    | None => browser s
    end in
  let new := next_url b1 in
  let b2 := createObjectURL (BlobObject blob) b1 in
  let s1 :=
    {| script := {| currentFile := currentFile (script s);
                    convertedBlob := Some blob;
                    convertedURL := Some new |};
       controls := controls s;
       preview := {| before_src := before_src (preview s);
                     before_onload := before_onload (preview s);
                     before_info := before_info (preview s);
                     after_src := Some new;
                     after_info := after_info (preview s);
                     file_size_text := file_size_text (preview s) |};
       browser := b2 |} in
  match index (split outType slash) 1 with
  | None => caught TypeError s1
  | Some subtype =>
      let s2 :=
        {| script := script s1;
           controls := {| format_value := format_value (controls s1);
                          quality_value := quality_value (controls s1);
                          scale_value := scale_value (controls s1);
                          convert_disabled := convert_disabled (controls s1);
                          convert_text := convert_text (controls s1);
                          download_disabled := false |};
           preview := {| before_src := before_src (preview s1);
                         before_onload := before_onload (preview s1);
                         before_info := before_info (preview s1);
                         after_src := after_src (preview s1);
                         after_info :=
                           toUpperCase h subtype ++ js " " ++ bullet ++ js " "
                           ++ bytesToSize h (blob_size h blob);
                         file_size_text := file_size_text (preview s1) |};
           browser := browser s1 |} in
      match currentFile (script s2) with
      | None => caught TypeError s2
      | Some current =>
          {| script := script s2;
             controls := controls s2;
             preview := {| before_src := before_src (preview s2);
                           before_onload := before_onload (preview s2);
                           before_info := before_info (preview s2);
                           after_src := after_src (preview s2);
                           after_info := after_info (preview s2);
                           file_size_text :=
                             js "Before: " ++ bytesToSize h (file_size current)
                             ++ js " " ++ bullet ++ js " After: "
                             ++ bytesToSize h (blob_size h blob) |};
             browser := browser s2 |}
      end
  end.

(** The click handler from the [await] on, for the conversion [p]. *)
Definition convert_settled (h : Host) (p : Pending) (s : State) : State :=
  finally_convert
    match settled (convertImageFile (runtime h) (file_bytes (pending_file p))
                     (pending_outType p) (Some (pending_quality p))
                     (Some (pending_scale p))) with
    | Resolved blob => converted h (pending_outType p) blob s
    | Rejected e => caught e s
    end.

Fixpoint remove_nth {A} (k : nat) (l : list A) : list A :=
  match l, k with
  | [], _ => []
  | _ :: r, O => r
  | a :: r, S k' => a :: remove_nth k' r
  end.

Definition download_click (s : State) : State :=
  match convertedBlob (script s) with
  | None => s
  | Some _ =>
      let filename :=
        download_filename (format_value (controls s)) (currentFile (script s)) in
      {| script := script s; controls := controls s; preview := preview s;
         browser := {| object_urls := object_urls (browser s);
                       next_url := next_url (browser s);
                       alerts := alerts (browser s);
                       downloads :=
                         (filename, convertedURL (script s)) :: downloads (browser s);
                       pending := pending (browser s) |} |}
  end.

Definition set_controls (c : Controls) (s : State) : State :=
  {| script := script s; controls := c; preview := preview s; browser := browser s |}.

(** What happens to the page: files dropped, chosen or pasted, a control
    changed by the user, a click, a conversion settling, the first preview
    loaded. *)
Inductive event : Type :=
| Drop (files : list UserFile)
| Choose (files : list UserFile)
| Paste (items : list (jsstring * option UserFile))
| Select_format (value : jsstring)
| Set_quality (value : jsstring)
| Set_scale (value : jsstring)
| Click_convert
| Settle (k : nat)
| Click_download
| Before_loaded.

Definition first_file (h : Host) (files : list UserFile) (s : State) : State :=
  match files with
  | [] => s
  | file :: _ => handleFile h file s
  end.

Definition step (h : Host) (e : event) (s : State) : State :=
  match e with
  | Drop files | Choose files => first_file h files s
  | Paste items =>
      match pasted_file items with
      | Some file => handleFile h file s
      | None => s
      end
  | Select_format v =>
      set_controls {| format_value := v;
                      quality_value := quality_value (controls s);
                      scale_value := scale_value (controls s);
                      convert_disabled := convert_disabled (controls s);
                      convert_text := convert_text (controls s);
                      download_disabled := download_disabled (controls s) |} s
  | Set_quality v =>
      set_controls {| format_value := format_value (controls s);
                      quality_value := v;
                      scale_value := scale_value (controls s);
                      convert_disabled := convert_disabled (controls s);
                      convert_text := convert_text (controls s);
                      download_disabled := download_disabled (controls s) |} s
  | Set_scale v =>
      set_controls {| format_value := format_value (controls s);
                      quality_value := quality_value (controls s);
                      scale_value := v;
                      convert_disabled := convert_disabled (controls s);
                      convert_text := convert_text (controls s);
                      download_disabled := download_disabled (controls s) |} s
  | Click_convert => convert_click h s
  | Settle k =>
      match nth_error (pending (browser s)) k with
      | None => s
      | Some p =>
          convert_settled h p
            {| script := script s; controls := controls s; preview := preview s;
               browser := set_pending (remove_nth k (pending (browser s))) (browser s) |}
      end
  | Click_download => download_click s
  | Before_loaded =>
      match before_onload (preview s) with
      | None => s
      | Some u =>
          {| script := script s; controls := controls s; preview := preview s;
             browser := revokeObjectURL u (browser s) |}
      end
  end.

(** The state after a sequence of events, the first one first. *)
Definition run_events (h : Host) (events : list event) (s : State) : State :=
  fold_left (fun s e => step h e s) events s.

(** The invariant of the page: a blob held by the script has a live
    object URL that names it, and the download button is enabled only when
    a blob is held; the URLs in use are older than the next one, and the
    URL of the preview is not that of the blob. *)
Definition consistent (s : State) : Prop :=
  (forall b, convertedBlob (script s) = Some b ->
             exists u, convertedURL (script s) = Some u /\
                       object_of u (object_urls (browser s)) = Some (BlobObject b)) /\
  (download_disabled (controls s) = false -> convertedBlob (script s) <> None) /\
  (forall u o, In (u, o) (object_urls (browser s)) -> (u < next_url (browser s))%nat) /\
  (forall u, convertedURL (script s) = Some u -> (u < next_url (browser s))%nat) /\
  (forall u, before_onload (preview s) = Some u -> (u < next_url (browser s))%nat) /\
  (forall u, before_onload (preview s) = Some u ->
             convertedURL (script s) = Some u -> False) /\
  (forall u b, In (u, BlobObject b) (object_urls (browser s)) ->
               convertedURL (script s) = Some u).

(** The object URLs are numbered in the order of their creation, and the
    URL of the blob is not that of a file. *)
Definition numbered (s : State) : Prop :=
  (forall u o, In (u, o) (object_urls (browser s)) -> (u < next_url (browser s))%nat) /\
  (forall u, convertedURL (script s) = Some u -> (u < next_url (browser s))%nat) /\
  (forall u f, In (u, FileObject f) (object_urls (browser s)) ->
               convertedURL (script s) = Some u -> False).

(** The object URL [u] of the file [f] is live, and the [onload] handler
    of the first preview is not the one that would revoke it. *)
Definition kept (u : url) (f : UserFile) (s : State) : Prop :=
  object_of u (object_urls (browser s)) = Some (FileObject f) /\
  (before_onload (preview s) = Some u -> False).

End Page.

(** ** theme.js *)

Module Theme.

Definition key : jsstring := js "fc:theme".

(** [localStorage]: access to it may be denied, and a write may fail for
    want of room; either way the call throws. *)
Record Storage : Type :=
  { accessible : bool; full : bool; items : jsstring -> option jsstring }.

Definition getItem (st : Storage) (k : jsstring) : result (option jsstring) :=
  if accessible st then Ok (items st k)
  else Throw (DOMException "SecurityError").

Definition setItem (st : Storage) (k v : jsstring) : result Storage :=
  if negb (accessible st) then Throw (DOMException "SecurityError")
  else if full st then Throw (DOMException "QuotaExceededError")
  else Ok {| accessible := accessible st; full := full st;
             items := fun k' => if eqb k' k then Some v else items st k' |}.

(** The document: the [data-theme] attribute of its root, its storage,
    and whether the system prefers dark ([None]: no [matchMedia]). *)
Record Document : Type :=
  { data_theme : option jsstring;
    localStorage : Storage;
    prefers_dark : option bool }.

Definition setAttribute (v : jsstring) (d : Document) : Document :=
  {| data_theme := Some v; localStorage := localStorage d;
     prefers_dark := prefers_dark d |}.

Definition applyInitialTheme (d : Document) : Document :=
  match getItem (localStorage d) key with
  | Throw _ => d
  | Ok saved =>
      match saved with
      | Some s =>
          if Page.truthy s then setAttribute s d
          else match prefers_dark d with
               | Some true => setAttribute (js "dark") d
               | _ => setAttribute (js "light") d
               end
      | None =>
          match prefers_dark d with
          | Some true => setAttribute (js "dark") d
          | _ => setAttribute (js "light") d
          end
      end
  end.

(** [getAttribute('data-theme') || 'light'] *)
Definition current_theme (d : Document) : jsstring :=
  match data_theme d with
  | Some a => if Page.truthy a then a else js "light"
  | None => js "light"
  end.

(** [try { localStorage.setItem('fc:theme', v) } catch (e) { ... }] *)
Definition save (v : jsstring) (d : Document) : Document :=
  match setItem (localStorage d) key v with
  | Ok st => {| data_theme := data_theme d; localStorage := st;
                prefers_dark := prefers_dark d |}
  | Throw _ => d
  end.

Definition toggleTheme (d : Document) : Document :=
  let current := current_theme d in
  let next := if eqb current (js "dark") then js "light" else js "dark" in
  save next (setAttribute next d).

Definition setTheme (theme : jsstring) (d : Document) : Document :=
  save theme (setAttribute theme d).

(** A new page load: the attribute is gone, the storage stays. *)
Definition reload (d : Document) : Document :=
  applyInitialTheme
    {| data_theme := None; localStorage := localStorage d;
       prefers_dark := prefers_dark d |}.

End Theme.

(** ** main.js: the link of the current page *)

Module Navigation.

(** [a.pop()] of an array that is left unused afterwards. *)
Definition pop {A} (a : list A) : option A :=
  match rev a with
  | [] => None
  | x :: _ => Some x
  end.

(** [location.pathname.split('/').pop() || 'index.html'] *)
Definition current_path (pathname : jsstring) : jsstring :=
  match pop (split pathname Page.slash) with
  | Some last => if Page.truthy last then last else js "index.html"
  | None => js "index.html"
  end.

(** For each link of the navigation, given by its [href] attribute
    ([None]: the link has none), whether it gets the class [active]. *)
Definition highlightCurrentLink (pathname : jsstring)
  (hrefs : list (option jsstring)) : list bool :=
  let path := current_path pathname in
  map (fun href => match href with
                   | Some target => eqb target path
                   | None => false
                   end) hrefs.

End Navigation.

(** ** A sample page

    A host over the reference browser, and a few files and controls, on
    which the handlers can be run. *)

Module Sample.

Definition is_digit (c : Z) : bool := (48 <=? c) && (c <=? 57).

(** [Number(s)] for the values a range input can have: the empty string
    is 0, a string of decimal digits its value, anything else NaN. *)
Definition digits_number (s : jsstring) : number :=
  if forallb is_digit s
  then of_Z (fold_left (fun n c => 10 * n + (c - 48)) s 0)
  else NaN.

Definition upper (c : Z) : Z := if (97 <=? c) && (c <=? 122) then c - 32 else c.

Definition host (rt : Runtime) : Page.Host :=
  {| Page.runtime := rt;
     Page.Number_of_string := digits_number;
     Page.toUpperCase := map upper;
     Page.utf8_length := fun s => Z.of_nat (length s);
     Page.bytesToSize := fun n => decimal n ++ js " B" |}.

Definition photo : Page.UserFile :=
  {| Page.file_name := js "holiday.photo.jpeg";
     Page.file_type := js "image/jpeg";
     Page.file_bytes := Reference.four_pixel_file |}.

Definition logo : Page.UserFile :=
  {| Page.file_name := js "logo.gif";
     Page.file_type := js "image/gif";
     Page.file_bytes := [1; 1; 9; 9; 9; 255] |}.

Definition notes : Page.UserFile :=
  {| Page.file_name := js "notes.txt";
     Page.file_type := js "text/plain";
     Page.file_bytes := [104; 105] |}.

Definition controls : Page.Controls :=
  {| Page.format_value := js "image/png";
     Page.quality_value := js "80";
     Page.scale_value := js "100";
     Page.convert_disabled := false;
     Page.convert_text := js "Convert";
     Page.download_disabled := false |}.

Definition preview : Page.Preview :=
  {| Page.before_src := None;
     Page.before_onload := None;
     Page.before_info := Page.dash;
     Page.after_src := None;
     Page.after_info := Page.dash;
     Page.file_size_text := [] |}.

Definition page : Page.State := Page.loaded controls preview.

Definition storage : Theme.Storage :=
  {| Theme.accessible := true; Theme.full := false; Theme.items := fun _ => None |}.

Definition document : Theme.Document :=
  {| Theme.data_theme := None;
     Theme.localStorage := storage;
     Theme.prefers_dark := Some true |}.

(** Storage that refuses every access, as with cookies blocked. *)
Definition blocked_document : Theme.Document :=
  {| Theme.data_theme := None;
     Theme.localStorage :=
       {| Theme.accessible := false; Theme.full := false;
          Theme.items := fun _ => None |};
     Theme.prefers_dark := Some true |}.

End Sample.

(** * Part II: theorems *)

(** ** Little-endian fields *)

Module DataViewFacts.
Import DataView.

Lemma le_bytes_u32 v : le_bytes 4 v = u32le v.
Proof.
  unfold u32le; simpl.
  rewrite !Z.div_div by lia.
  reflexivity.
Qed.

Lemma u32le_wrap v k : u32le (v + k * 2 ^ 32) = u32le v.
Proof.
  unfold u32le.
  replace (v + k * 2 ^ 32) with (v + (k * 16777216) * 256) by lia.
  rewrite Z.mod_add, Z.div_add by lia.
  replace (v + k * 16777216 * 256) with (v + (k * 65536) * 65536) by lia.
  rewrite Z.div_add by lia.
  replace (v / 65536 + k * 65536) with (v / 65536 + (k * 256) * 256) by lia.
  replace (v + k * 65536 * 65536) with (v + (k * 256) * 16777216) by lia.
  rewrite Z.div_add by lia.
  replace (v / 256 + k * 16777216) with (v / 256 + (k * 65536) * 256) by lia.
  rewrite !Z.mod_add by lia.
  reflexivity.
Qed.

Lemma le_bytes_i32 v : le_bytes 4 v = i32le v.
Proof.
  rewrite le_bytes_u32. unfold i32le.
  destruct (v <? 0); [|reflexivity].
  symmetry. exact (u32le_wrap v 1).
Qed.

Lemma le_value_u32le v : le_value (u32le v) = v mod 2 ^ 32.
Proof.
  unfold u32le, le_value.
  change (2 ^ 32) with 4294967296.
  Z.to_euclidean_division_equations. lia.
Qed.

Lemma signed32_small v : 0 <= v < 2 ^ 31 -> signed32 (v mod 2 ^ 32) = v.
Proof.
  intros H. rewrite Z.mod_small by lia.
  unfold signed32. destruct (Z.ltb_spec v (2 ^ 31)); lia.
Qed.

End DataViewFacts.

(** ** Sequential writes *)

Module WriterFacts.
Import DataView Writer DataViewFacts.
Local Open Scope cmd_scope.

Lemma store_inside pre mid post bs :
  length mid = length bs ->
  store (Z.of_nat (length pre)) bs (pre ++ mid ++ post) = Some (pre ++ bs ++ post).
Proof.
  intros Hlen. unfold store, byteLength.
  rewrite !length_app, Nat2Z.id.
  destruct (Z.leb_spec 0 (Z.of_nat (length pre))); [|lia].
  destruct (Z.leb_spec (Z.of_nat (length pre) + Z.of_nat (length bs))
              (Z.of_nat (length pre + (length mid + length post)))); [|lia].
  simpl. f_equal.
  rewrite firstn_app, firstn_all, Nat.sub_diag, firstn_O, app_nil_r.
  f_equal. f_equal.
  rewrite skipn_app.
  rewrite (skipn_all2 pre) by lia.
  replace (length pre + length bs - length pre)%nat with (length mid) by lia.
  rewrite skipn_app, skipn_all, Nat.sub_diag. reflexivity.
Qed.

Lemma writes_skip : writes skip [].
Proof.
  intros pre mid post Hlen. destruct mid; [|discriminate].
  unfold skip. simpl. now rewrite Nat.add_0_r.
Qed.

Lemma writes_seq c1 c2 b1 b2 :
  writes c1 b1 -> writes c2 b2 -> writes (c1 ;; c2) (b1 ++ b2).
Proof.
  intros H1 H2 pre mid post Hlen.
  rewrite length_app in Hlen.
  rewrite <- (firstn_skipn (length b1) mid), <- app_assoc.
  unfold seq.
  rewrite H1 by (rewrite length_firstn; lia).
  simpl.
  replace (pre ++ b1 ++ skipn (length b1) mid ++ post)
    with ((pre ++ b1) ++ skipn (length b1) mid ++ post)
    by now rewrite <- app_assoc.
  rewrite <- (length_app pre b1).
  rewrite H2 by (rewrite length_skipn; lia).
  rewrite !length_app, <- !app_assoc.
  do 2 f_equal. lia.
Qed.

Lemma writes_advancing n access bs :
  n = Z.of_nat (length bs) ->
  (forall off, access off = store off bs) ->
  writes (advancing n access) bs.
Proof.
  intros Hn Hacc pre mid post Hlen.
  unfold advancing. simpl.
  rewrite Hacc, store_inside by assumption.
  simpl. subst n. do 2 f_equal. lia.
Qed.

Lemma writes_for_up body f n :
  (forall i, writes (body i) (f i)) ->
  forall from,
    writes (for_up from n body)
      (flat_map (fun k => f (from + Z.of_nat k)) (List.seq 0 n)).
Proof.
  intros Hbody. induction n as [|n IH]; intros from.
  - apply writes_skip.
  - cbn [for_up List.seq flat_map].
    apply writes_seq.
    + rewrite Z.add_0_r. apply Hbody.
    + rewrite <- seq_shift, flat_map_concat_map, map_map, <- flat_map_concat_map.
      erewrite flat_map_ext; [apply (IH (from + 1))|].
      intros k. simpl. f_equal. lia.
Qed.

Lemma writes_for_down body f n :
  (forall k : nat, writes (body (Z.of_nat k)) (f k)) ->
  writes (for_down n body) (flat_map f (rev (List.seq 0 n))).
Proof.
  intros Hbody. induction n as [|n IH].
  - apply writes_skip.
  - rewrite seq_S, rev_app_distr. cbn [for_down rev app flat_map].
    apply writes_seq; [apply Hbody | exact IH].
Qed.

End WriterFacts.

(** ** The bitmap writer *)

Module BMPFacts.
Import DataView Writer DataViewFacts WriterFacts.
Local Open Scope cmd_scope.

Lemma rowStride_stride w : rowStride w = stride w.
Proof. reflexivity. Qed.

Lemma stride_aligned w : stride w mod 4 = 0.
Proof. unfold stride. apply Z.mod_mul. lia. Qed.

Lemma stride_covers w : w * 3 <= stride w.
Proof. unfold stride. Z.to_euclidean_division_equations. lia. Qed.

Lemma stride_nonneg w : 0 <= w -> 0 <= stride w.
Proof. intros H. pose proof (stride_covers w). lia. Qed.

Lemma writes_put8 v : writes (put8 v) [v mod 256].
Proof. apply writes_advancing; reflexivity. Qed.

Lemma writes_put16 v : writes (put16 v) (u16le v).
Proof. apply writes_advancing; reflexivity. Qed.

Lemma writes_put32 v : writes (put32 v) (u32le v).
Proof.
  apply writes_advancing; [reflexivity|].
  intros off. unfold setUint32, ordered. now rewrite le_bytes_u32.
Qed.

Lemma writes_puti32 v : writes (puti32 v) (i32le v).
Proof.
  apply writes_advancing; [reflexivity|].
  intros off. unfold setInt32, ordered. now rewrite le_bytes_i32.
Qed.

Create HintDb writes.
#[local] Hint Resolve writes_put8 writes_put16 writes_put32 writes_puti32
  writes_seq : writes.

Lemma writes_headers w h :
  writes (write_headers w h (54 + stride w * h) (stride w * h))
    (file_header w h ++ info_header w h).
Proof.
  change (file_header w h ++ info_header w h)
    with ([0x42 mod 256] ++ [0x4D mod 256] ++ u32le (54 + stride w * h)
          ++ u16le 0 ++ u16le 0 ++ u32le 54
          ++ u32le 40 ++ i32le w ++ i32le h ++ u16le 1 ++ u16le 24 ++ u32le 0
          ++ u32le (stride w * h) ++ i32le 2835 ++ i32le 2835 ++ u32le 0 ++ u32le 0).
  unfold write_headers.
  repeat (apply writes_seq; [auto with writes|]).
  auto with writes.
Qed.

Lemma headers_length w h : length (file_header w h ++ info_header w h) = 54%nat.
Proof. reflexivity. Qed.

Lemma channel_nth pixels i :
  0 <= i -> channel pixels i = nth (Z.to_nat i) pixels 0.
Proof.
  intros Hi. unfold channel, index.
  destruct (Z.ltb_spec i 0); [lia|].
  destruct (nth_error pixels (Z.to_nat i)) as [v|] eqn:E.
  - symmetry. now apply nth_error_nth.
  - symmetry. apply nth_overflow. now apply nth_error_None.
Qed.

Lemma nth_is_byte pixels n : Forall is_byte pixels -> is_byte (nth n pixels 0).
Proof.
  intros H. destruct (nth_in_or_default n pixels 0) as [Hin | ->].
  - rewrite Forall_forall in H. now apply H.
  - unfold is_byte. lia.
Qed.

Lemma zero_run n : flat_map (fun _ : nat => [0 mod 256]) (List.seq 0 n) = repeat 0 n.
Proof.
  generalize 0%nat. induction n as [|n IH]; intros s; simpl; [reflexivity|].
  now rewrite IH.
Qed.

(** The bytes one pass of the outer loop writes are the row of the layout. *)
Lemma writes_row c y :
  0 <= canvas_width c ->
  Forall is_byte (canvas_data c) ->
  writes
    (for_up 0 (Z.to_nat (canvas_width c)) (fun x =>
       let i := (Z.of_nat y * canvas_width c + x) * 4 in
       let r := channel (canvas_data c) i in
       let g := channel (canvas_data c) (i + 1) in
       let b := channel (canvas_data c) (i + 2) in
       put8 b ;; put8 g ;; put8 r) ;;
     for_up 0 (Z.to_nat (stride (canvas_width c) - canvas_width c * 3))
       (fun k => put8 0))
    (pixel_row c y).
Proof.
  intros Hw Hbytes. unfold pixel_row.
  apply writes_seq.
  - erewrite flat_map_ext.
    + apply (writes_for_up _
               (fun x => [channel (canvas_data c)
                            ((Z.of_nat y * canvas_width c + x) * 4 + 2) mod 256]
                         ++ [channel (canvas_data c)
                               ((Z.of_nat y * canvas_width c + x) * 4 + 1) mod 256]
                         ++ [channel (canvas_data c)
                               ((Z.of_nat y * canvas_width c + x) * 4) mod 256])).
      intros i. cbv zeta. auto with writes.
    + intros x. unfold bgr, blue, green, red. cbn [app].
      rewrite !channel_nth by lia.
      rewrite !Z.mod_small by (apply nth_is_byte; assumption).
      repeat f_equal; lia.
  - rewrite <- zero_run.
    apply (writes_for_up (fun _ => put8 0) (fun _ => [0 mod 256])).
    intros _. apply writes_put8.
Qed.

Lemma writes_pixel_array c :
  0 <= canvas_width c ->
  Forall is_byte (canvas_data c) ->
  writes
    (write_pixels (canvas_data c) (canvas_width c) (canvas_height c)
       (stride (canvas_width c) - canvas_width c * 3))
    (pixel_array c).
Proof.
  intros Hw Hbytes. unfold write_pixels, pixel_array.
  apply writes_for_down.
  intros y. now apply writes_row.
Qed.

Lemma flat_map_length_const {A B} (f : A -> list B) k l :
  (forall x, length (f x) = k) -> length (flat_map f l) = (length l * k)%nat.
Proof.
  intros Hf. induction l as [|x l IH]; simpl; [reflexivity|].
  now rewrite length_app, Hf, IH.
Qed.

Lemma pixel_row_length c y :
  0 <= canvas_width c ->
  length (pixel_row c y) = Z.to_nat (stride (canvas_width c)).
Proof.
  intros Hw. pose proof (stride_covers (canvas_width c)) as Hs.
  unfold pixel_row.
  rewrite length_app, repeat_length.
  rewrite (flat_map_length_const _ 3%nat) by reflexivity.
  rewrite length_seq. lia.
Qed.

Lemma pixel_array_length c :
  0 <= canvas_width c -> 0 <= canvas_height c ->
  length (pixel_array c)
  = Z.to_nat (stride (canvas_width c) * canvas_height c).
Proof.
  intros Hw Hh. pose proof (stride_nonneg _ Hw) as Hs.
  unfold pixel_array.
  rewrite (flat_map_length_const _ (Z.to_nat (stride (canvas_width c))))
    by (intros y; now apply pixel_row_length).
  rewrite length_rev, length_seq. nia.
Qed.

(** The whole file: the two headers, then the pixel array. *)
Lemma canvasToBMP_layout c :
  0 < canvas_width c -> 0 < canvas_height c ->
  Forall is_byte (canvas_data c) ->
  canvasToBMP c
  = Ok {| blob_parts :=
            [BufferPart (file_header (canvas_width c) (canvas_height c)
                         ++ info_header (canvas_width c) (canvas_height c)
                         ++ pixel_array c)];
          blob_type := js "image/bmp" |}.
Proof.
  intros Hw Hh Hbytes.
  pose proof (stride_nonneg (canvas_width c) ltac:(lia)) as Hs.
  unfold canvasToBMP, getImageData. rewrite !rowStride_stride.
  destruct (Z.eqb_spec (canvas_width c) 0); [lia|].
  destruct (Z.eqb_spec (canvas_height c) 0); [lia|].
  cbn [orb rbind].
  set (w := canvas_width c) in *. set (h := canvas_height c) in *.
  unfold ArrayBuffer.
  destruct (Z.ltb_spec (54 + stride w * h) 0); [nia|].
  cbn [or_RangeError rbind].
  replace (Z.to_nat (54 + stride w * h))
    with (54 + Z.to_nat (stride w * h))%nat by nia.
  rewrite repeat_app.
  pose proof (writes_headers w h [] (repeat 0 54)
                (repeat 0 (Z.to_nat (stride w * h)))) as Hhead.
  cbn [app length Z.of_nat] in Hhead.
  rewrite Hhead by reflexivity. clear Hhead.
  cbn [or_RangeError rbind fst].
  pose proof (writes_pixel_array c ltac:(lia) Hbytes
                (file_header w h ++ info_header w h)
                (repeat 0 (Z.to_nat (stride w * h))) []) as Hpix.
  rewrite headers_length in Hpix.
  change (Z.of_nat 54) with 54 in Hpix.
  rewrite !app_nil_r in Hpix.
  fold w h in Hpix.
  rewrite Hpix
    by (rewrite repeat_length; symmetry; apply pixel_array_length; lia).
  cbn [or_RangeError rbind fst]. now rewrite <- app_assoc.
Qed.

Lemma canvasToBMP_of_buffer c :
  RGBA_buffer c ->
  canvasToBMP c
  = Ok {| blob_parts :=
            [BufferPart (file_header (canvas_width c) (canvas_height c)
                         ++ info_header (canvas_width c) (canvas_height c)
                         ++ pixel_array c)];
          blob_type := js "image/bmp" |}.
Proof.
  intros (Hw & Hh & _ & Hbytes). now apply canvasToBMP_layout.
Qed.

Lemma layout_length c :
  0 <= canvas_width c -> 0 <= canvas_height c ->
  byteLength (file_header (canvas_width c) (canvas_height c)
              ++ info_header (canvas_width c) (canvas_height c)
              ++ pixel_array c)
  = 54 + stride (canvas_width c) * canvas_height c.
Proof.
  intros Hw Hh. pose proof (stride_nonneg _ Hw).
  unfold byteLength.
  rewrite app_assoc, length_app, headers_length, pixel_array_length by assumption.
  nia.
Qed.

(** What the size field holds, whatever the size: the file size modulo
    2^32. *)
Lemma size_field c :
  0 <= canvas_width c -> 0 <= canvas_height c ->
  getUint32 2 true
    (file_header (canvas_width c) (canvas_height c)
     ++ info_header (canvas_width c) (canvas_height c)
     ++ pixel_array c)
  = Some ((54 + stride (canvas_width c) * canvas_height c) mod 2 ^ 32).
Proof.
  intros Hw Hh. pose proof (stride_nonneg _ Hw).
  unfold getUint32, slice.
  rewrite layout_length by assumption.
  destruct (Z.leb_spec (2 + Z.of_nat 4) (54 + stride (canvas_width c) * canvas_height c));
    [|nia].
  cbn [Z.leb Z.compare andb obind ordered].
  rewrite <- le_value_u32le. reflexivity.
Qed.

Lemma signed_field off v rest pre :
  length pre = Z.to_nat off -> 0 <= off ->
  0 <= v < 2 ^ 31 ->
  getInt32 off true (pre ++ i32le v ++ rest) = Some v.
Proof.
  intros Hpre Hoff Hv.
  unfold getInt32, getUint32, slice, byteLength.
  rewrite !length_app.
  replace (length (i32le v)) with 4%nat by reflexivity.
  destruct (Z.leb_spec 0 off); [|lia].
  destruct (Z.leb_spec (off + Z.of_nat 4)
              (Z.of_nat (length pre + (4 + length rest)))); [|lia].
  cbn [andb obind ordered].
  rewrite <- Hpre, skipn_app, skipn_all, Nat.sub_diag.
  cbn [app skipn].
  unfold i32le. destruct (Z.ltb_spec v 0); [lia|].
  cbn [u32le app firstn].
  change [v mod 256; v / 256 mod 256; v / 65536 mod 256; v / 16777216 mod 256]
    with (u32le v).
  rewrite le_value_u32le. f_equal. now apply signed32_small.
Qed.

(** Consecutive pieces of equal length: the [k]-th piece of a
    concatenation. *)
Lemma piece_of_flat_map {A B} (f : A -> list B) n l k d :
  (forall x, length (f x) = n) ->
  (k < length l)%nat ->
  firstn n (skipn (k * n) (flat_map f l)) = f (nth k l d).
Proof.
  intros Hf. revert k. induction l as [|x l IH]; intros k Hk; simpl in Hk; [lia|].
  cbn [flat_map]. destruct k as [|k].
  - cbn [Nat.mul skipn nth].
    rewrite firstn_app, Hf, Nat.sub_diag, firstn_O, app_nil_r.
    rewrite <- (Hf x). apply firstn_all.
  - cbn [Nat.mul nth].
    rewrite skipn_app, Hf.
    rewrite skipn_all2 by (rewrite Hf; lia).
    replace (n + k * n - n)%nat with (k * n)%nat by lia.
    cbn [app]. apply IH. lia.
Qed.

End BMPFacts.

(** ** The bitmap file *)

Section Bitmap.
Import DataView BMPFacts.

Variable c : Canvas.
Let w := canvas_width c.
Let h := canvas_height c.

(** C1.  For every RGBA buffer of positive width [w] and height [h] the
    writer computes [rowStride = floor((24 * w + 31) / 32) * 4], a multiple
    of 4 that is at least [w * 3], and returns a blob of exactly
    [54 + rowStride * h] bytes.  The little-endian unsigned 32-bit field at
    offset 2 reads back as that byte length whenever the length fits the
    field, and it does for the buffer of every canvas, no canvas being
    larger than 32767 pixels either way. *)
Theorem bmp_file_size :
  RGBA_buffer c ->
  rowStride w = (24 * w + 31) / 32 * 4 /\
  rowStride w mod 4 = 0 /\
  w * 3 <= rowStride w /\
  exists out,
    canvasToBMP c
    = Ok {| blob_parts := [BufferPart out]; blob_type := js "image/bmp" |} /\
    byteLength out = 54 + rowStride w * h /\
    (byteLength out < 2 ^ 32 -> getUint32 2 true out = Some (byteLength out)) /\
    (within_canvas_limits c ->
     byteLength out < 2 ^ 32 /\ getUint32 2 true out = Some (byteLength out)).
Proof.
  intros Hbuf.
  pose proof Hbuf as (Hw & Hh & _).
  pose proof (stride_nonneg w ltac:(subst w; lia)) as Hs.
  pose proof (stride_covers w) as Hcover.
  pose proof (stride_aligned w) as Haligned.
  rewrite rowStride_stride in *.
  split; [reflexivity|].
  split; [exact Haligned|].
  split; [exact Hcover|].
  eexists. rewrite (canvasToBMP_of_buffer c Hbuf).
  split; [reflexivity|].
  fold w h.
  pose proof (layout_length c ltac:(lia) ltac:(lia)) as Hlen. fold w h in Hlen.
  split; [exact Hlen|].
  pose proof (size_field c ltac:(lia) ltac:(lia)) as Hfield. fold w h in Hfield.
  rewrite Hfield, Hlen.
  assert (Hsmall : 54 + stride w * h < 2 ^ 32 ->
                   Some ((54 + stride w * h) mod 2 ^ 32)
                   = Some (54 + stride w * h)).
  { intros Hfit. f_equal. apply Z.mod_small. subst w h. nia. }
  split; [exact Hsmall|].
  intros [Hwmax Hhmax]. unfold canvas_limit in *. fold w in Hwmax. fold h in Hhmax.
  assert (Hfit : 54 + stride w * h < 2 ^ 32).
  { assert (stride w <= 98304) as Hstride.
    { unfold stride. subst w. Z.to_euclidean_division_equations. lia. }
    subst w h. nia. }
  split; [exact Hfit | exact (Hsmall Hfit)].
Qed.

(** C2.  For every RGBA buffer the first 54 bytes of the file are the
    14-byte file header (0x42, 0x4D, the file size, two reserved 16-bit
    zeros, the offset 54) followed by the 40-byte info header (header size
    40, width, height, planes 1, 24 bits per pixel, compression 0, the size
    of the pixel array, 2835 pixels per metre twice, colours used 0,
    important colours 0), every field little-endian and holding the 32 (or
    16) low-order bits of its value; the height written is the positive
    height itself, and the signed width and height fields read back as the
    width and the height whenever these are below 2^31. *)
Theorem bmp_headers :
  RGBA_buffer c ->
  exists out,
    canvasToBMP c
    = Ok {| blob_parts := [BufferPart out]; blob_type := js "image/bmp" |} /\
    firstn 54 out = file_header w h ++ info_header w h /\
    length (file_header w h) = 14%nat /\
    length (info_header w h) = 40%nat /\
    file_header w h
    = [0x42; 0x4D] ++ u32le (54 + rowStride w * h) ++ u16le 0 ++ u16le 0
      ++ u32le 54 /\
    info_header w h
    = u32le 40 ++ i32le w ++ i32le h ++ u16le 1 ++ u16le 24 ++ u32le 0
      ++ u32le (rowStride w * h) ++ i32le 2835 ++ i32le 2835
      ++ u32le 0 ++ u32le 0 /\
    0 < h /\
    (w < 2 ^ 31 -> getInt32 18 true out = Some w) /\
    (h < 2 ^ 31 -> getInt32 22 true out = Some h).
Proof.
  intros Hbuf. pose proof Hbuf as (Hw & Hh & _).
  eexists. rewrite (canvasToBMP_of_buffer c Hbuf). fold w h.
  split; [reflexivity|].
  split.
  { rewrite app_assoc, firstn_app, headers_length, Nat.sub_diag, firstn_O, app_nil_r.
    rewrite <- (headers_length w h) at 1. apply firstn_all. }
  do 4 (split; [reflexivity|]).
  split; [exact Hh|].
  split; intros Hsmall.
  - change (file_header w h ++ info_header w h ++ pixel_array c)
      with ((file_header w h ++ u32le 40)
            ++ i32le w
            ++ (i32le h ++ u16le 1 ++ u16le 24 ++ u32le 0 ++ u32le (stride w * h)
                ++ i32le 2835 ++ i32le 2835 ++ u32le 0 ++ u32le 0)
            ++ pixel_array c).
    apply signed_field; [reflexivity | lia | subst w; lia].
  - change (file_header w h ++ info_header w h ++ pixel_array c)
      with ((file_header w h ++ u32le 40 ++ i32le w)
            ++ i32le h
            ++ (u16le 1 ++ u16le 24 ++ u32le 0 ++ u32le (stride w * h)
                ++ i32le 2835 ++ i32le 2835 ++ u32le 0 ++ u32le 0)
            ++ pixel_array c).
    apply signed_field; [reflexivity | lia | subst h; lia].
Qed.

(** C3.  For every RGBA buffer the bytes from offset 54 on are the pixel
    array: the source rows from the last one to the first, each row being
    its pixels from left to right as the three bytes blue, green, red (no
    alpha), followed by exactly [rowStride - w * 3] zero bytes.  In
    particular the [k]-th run of [rowStride] bytes is source row
    [h - 1 - k]. *)
Theorem bmp_pixel_rows :
  RGBA_buffer c ->
  exists out,
    canvasToBMP c
    = Ok {| blob_parts := [BufferPart out]; blob_type := js "image/bmp" |} /\
    skipn 54 out = pixel_array c /\
    pixel_array c = flat_map (pixel_row c) (rev (List.seq 0 (Z.to_nat h))) /\
    (forall y,
        pixel_row c y
        = flat_map (fun x => [blue c x y; green c x y; red c x y])
            (List.seq 0 (Z.to_nat w))
          ++ repeat 0 (Z.to_nat (rowStride w - w * 3))) /\
    (forall k,
        (k < Z.to_nat h)%nat ->
        firstn (Z.to_nat (rowStride w))
          (skipn (54 + k * Z.to_nat (rowStride w)) out)
        = pixel_row c (Z.to_nat h - 1 - k)).
Proof.
  intros Hbuf. pose proof Hbuf as (Hw & Hh & _).
  eexists. rewrite (canvasToBMP_of_buffer c Hbuf). fold w h.
  split; [reflexivity|].
  assert (Hskip : forall n,
             skipn (54 + n) (file_header w h ++ info_header w h ++ pixel_array c)
             = skipn n (pixel_array c)).
  { intros n. rewrite app_assoc, skipn_app, headers_length.
    rewrite skipn_all2 by (rewrite headers_length; lia).
    cbn [app]. f_equal. lia. }
  split; [exact (Hskip 0%nat)|].
  split; [reflexivity|].
  split; [reflexivity|].
  intros k Hk. rewrite Hskip. unfold pixel_array. fold h.
  rewrite (piece_of_flat_map _ _ _ _ 0%nat).
  - f_equal. rewrite rev_nth by (rewrite length_seq; exact Hk).
    rewrite length_seq, seq_nth by lia. lia.
  - intros y. apply pixel_row_length. fold w. lia.
  - rewrite length_rev, length_seq. exact Hk.
Qed.

End Bitmap.

Lemma bmp_file_size_witness :
  exists out,
    canvasToBMP Reference.four_pixel_canvas
    = Ok {| blob_parts := [BufferPart out]; blob_type := js "image/bmp" |} /\
    DataView.byteLength out = 70 /\
    DataView.getUint32 2 true out = Some 70.
Proof.
  destruct (bmp_file_size Reference.four_pixel_canvas)
    as (_ & _ & _ & out & Hout & Hlen & _ & Hfield).
  - repeat split; try reflexivity.
    repeat constructor; unfold is_byte; lia.
  - exists out. split; [exact Hout|]. split; [exact Hlen|].
    destruct Hfield as [_ Hfield]; [split; discriminate|].
    rewrite Hfield; rewrite Hlen; reflexivity.
Defined.

Lemma bmp_headers_witness :
  exists out,
    canvasToBMP Reference.four_pixel_canvas
    = Ok {| blob_parts := [BufferPart out]; blob_type := js "image/bmp" |} /\
    firstn 54 out
    = [66; 77; 70; 0; 0; 0; 0; 0; 0; 0; 54; 0; 0; 0;
       40; 0; 0; 0; 2; 0; 0; 0; 2; 0; 0; 0; 1; 0; 24; 0; 0; 0; 0; 0;
       16; 0; 0; 0; 19; 11; 0; 0; 19; 11; 0; 0; 0; 0; 0; 0; 0; 0; 0; 0].
Proof.
  destruct (bmp_headers Reference.four_pixel_canvas) as (out & Hout & Hhead & _).
  - repeat split; try reflexivity.
    repeat constructor; unfold is_byte; lia.
  - exists out. split; [exact Hout | exact Hhead].
Defined.

Lemma bmp_pixel_rows_witness :
  exists out,
    canvasToBMP Reference.four_pixel_canvas
    = Ok {| blob_parts := [BufferPart out]; blob_type := js "image/bmp" |} /\
    skipn 54 out = [255; 0; 0; 0; 255; 255; 0; 0; 0; 0; 255; 0; 255; 0; 0; 0].
Proof.
  destruct (bmp_pixel_rows Reference.four_pixel_canvas) as (out & Hout & Hpix & _).
  - repeat split; try reflexivity.
    repeat constructor; unfold is_byte; lia.
  - exists out. split; [exact Hout | exact Hpix].
Defined.


(** C4.  The 2 x 2 opaque image with pixels (255,0,0), (0,255,0),
    (0,0,255), (255,255,0), row by row from the top, becomes a file of 70
    bytes, 54 of headers and two rows of stride 8; the first row of its
    pixel array is the bottom source row, blue then yellow, each pixel as
    blue, green, red, padded with zeros to 8 bytes. *)
Theorem bmp_four_pixels :
  exists out,
    canvasToBMP Reference.four_pixel_canvas
    = Ok {| blob_parts := [BufferPart out]; blob_type := js "image/bmp" |} /\
    length out = 70%nat /\
    length out = (54 + 2 * Z.to_nat (rowStride 2))%nat /\
    rowStride 2 = 8 /\
    firstn 8 (skipn 54 out) = [255; 0; 0; 0; 255; 255; 0; 0] /\
    firstn 8 (skipn 54 out)
    = bgr Reference.four_pixel_canvas 1 0 ++ bgr Reference.four_pixel_canvas 1 1
      ++ [0; 0] /\
    firstn 8 (skipn (54 + 8) out) = [0; 0; 255; 0; 255; 0; 0; 0].
Proof.
  eexists. split; [vm_compute; reflexivity|].
  repeat split.
Qed.

(** ** The target dimensions *)

Module NumberFacts.


Lemma Math_max_NaN x y : is_NaN (Math_max x y) = is_NaN x || is_NaN y.
Proof.
  destruct x as [|[|]|a], y as [|[|]|b]; try reflexivity.
  simpl. now destruct (Qleb a b).
Qed.






End NumberFacts.

Section TargetDimensions.

Variable rt : Runtime.
Variable file : File.
Variable img : Image.
Variable outType : jsstring.
Variables quality_arg scale_arg : option number.
Variable scale : Q.

Let width :=
  Math_max (of_Z 1)
    (Math_round (fl rt (inject_Z (naturalWidth img) * scale))).
Let height :=
  Math_max (of_Z 1)
    (Math_round (fl rt (inject_Z (naturalHeight img) * scale))).


End TargetDimensions.


(** ** The decoders of the reference runtime *)

Module ReferenceFacts.
Import Reference.

Example base64_decode_text : base64_decode (js "QUJD") = Ok (js "ABC").
Proof. reflexivity. Qed.

Example base64_decode_padded : base64_decode (js "QUI=") = Ok (js "AB").
Proof. reflexivity. Qed.

Example base64_decode_unpadded : base64_decode (js "QQ") = Ok (js "A").
Proof. reflexivity. Qed.

Example base64_decode_rejects :
  base64_decode (js "Q") = Throw (DOMException "InvalidCharacterError") /\
  base64_decode (js "QU-D") = Throw (DOMException "InvalidCharacterError").
Proof. split; reflexivity. Qed.

Example base64_encode_decode :
  base64_decode (base64_encode four_pixels) = Ok four_pixels.
Proof. reflexivity. Qed.

Example percent_decode_plain : percent_decode (js "a%20b") = Ok (js "a b").
Proof. reflexivity. Qed.

(** "%E2%82%AC" is U+20AC; "%F0%9F%98%80" is U+1F600, two code units. *)
Example percent_decode_utf8 :
  percent_decode (js "%E2%82%AC") = Ok [8364] /\
  percent_decode (js "%F0%9F%98%80") = Ok [55357; 56832].
Proof. split; reflexivity. Qed.

Example percent_decode_rejects :
  percent_decode (js "%") = Throw URIError /\
  percent_decode (js "%E9") = Throw URIError /\
  percent_decode (js "%C0%80") = Throw URIError.
Proof. repeat split. Qed.

End ReferenceFacts.

(** ** dataURLToBlob *)

Module DataURLFacts.

Lemma split_cons s sep : exists first rest, split s sep = first :: rest.
Proof.
  induction s as [|c r (first & rest & IH)]; simpl.
  - now exists [], [].
  - destruct (c =? sep).
    + now exists [], (split r sep).
    + rewrite IH. now exists (c :: first), rest.
Qed.

Lemma index_0_split s sep : index (split s sep) 0 = Some (hd [] (split s sep)).
Proof. destruct (split_cons s sep) as (first & rest & ->). reflexivity. Qed.

Lemma typed_set_next done zs z v :
  typed_set (done ++ z :: zs) (length done) v = (done ++ [ToUint8 v]) ++ zs.
Proof.
  unfold typed_set.
  destruct (Nat.ltb_spec (length done) (length (done ++ z :: zs))) as [_|H].
  - rewrite firstn_app, firstn_all, Nat.sub_diag, firstn_O, app_nil_r.
    rewrite <- app_assoc. f_equal. cbn [app]. f_equal.
    change (S (length done)) with (1 + length done)%nat.
    rewrite <- skipn_skipn.
    rewrite skipn_app, skipn_all, Nat.sub_diag. reflexivity.
  - rewrite length_app in H. simpl in H. lia.
Qed.

(** The loop over the string has filled the array with the low bytes of
    its code units. *)
Lemma fill_from_spec rest :
  forall done filled zs,
    length filled = length done ->
    length zs = length rest ->
    fill_from (done ++ rest) (length done) (length rest) (filled ++ zs)
    = filled ++ map low_byte rest.
Proof.
  induction rest as [|c rest IH]; intros done filled zs Hdone Hzs.
  - destruct zs; [reflexivity | discriminate].
  - destruct zs as [|z zs]; [discriminate|].
    cbn [fill_from length map].
    rewrite <- Hdone, typed_set_next, Hdone.
    unfold charCodeAt. rewrite nth_error_app2, Nat.sub_diag by lia.
    cbn [nth_error ToUint8].
    replace (done ++ c :: rest) with ((done ++ [c]) ++ rest)
      by now rewrite <- app_assoc.
    replace (S (length done)) with (length (done ++ [c]))
      by (rewrite length_app; simpl; lia).
    rewrite IH.
    + now rewrite <- app_assoc.
    + rewrite !length_app. simpl. lia.
    + simpl in Hzs. lia.
Qed.

Lemma string_bytes_low_bytes s : string_bytes s = map low_byte s.
Proof.
  unfold string_bytes, Uint8Array.
  exact (fill_from_spec s [] [] (repeat 0 (length s)) eq_refl
           (repeat_length 0 (length s))).
Qed.


(** [dataURLToBlob] in terms of the parts of the string. *)
Lemma dataURLToBlob_parts rt dataURL :
  dataURLToBlob rt dataURL
  = match declared_type (meta_of dataURL) with
    | None => Throw TypeError
    | Some contentType =>
        match decoder rt (meta_of dataURL) (payload_of dataURL) with
        | Throw e => Throw e
        | Ok s => Ok {| blob_parts := [BufferPart (map low_byte s)];
                        blob_type := Blob_type contentType |}
        end
    end.
Proof.
  unfold dataURLToBlob, declared_type, decoder, meta_of, payload_of, is_base64.
  rewrite index_0_split. cbn [defined rbind].
  destruct (index (split (hd [] (split dataURL comma)) colon) 1) as [tagged|];
    [|reflexivity].
  cbn [defined rbind].
  rewrite index_0_split. cbn [blob_type_option].
  destruct (0 <=? indexOf (hd [] (split dataURL comma)) (js "base64")).
  - destruct (atob rt _); cbn [rbind]; [|reflexivity].
    now rewrite string_bytes_low_bytes.
  - destruct (decodeURIComponent rt _); cbn [rbind]; [|reflexivity].
    now rewrite string_bytes_low_bytes.
Qed.

End DataURLFacts.

(** ** Well-formed embedded-data strings *)

Module DataURLMore.
Import DataURLFacts.

Lemma split_without s sep : ~ In sep s -> split s sep = [s].
Proof.
  induction s as [|c r IH]; intros Hs; [reflexivity|].
  cbn [split].
  destruct (Z.eqb_spec c sep) as [->|_]; [exfalso; apply Hs; now left|].
  rewrite IH by (intros Hr; apply Hs; now right). reflexivity.
Qed.

Lemma split_at_first a b sep :
  ~ In sep a -> split (a ++ sep :: b) sep = a :: split b sep.
Proof.
  induction a as [|c r IH]; intros Ha.
  - cbn [app split]. now rewrite Z.eqb_refl.
  - cbn [app split].
    destruct (Z.eqb_spec c sep) as [->|_]; [exfalso; apply Ha; now left|].
    rewrite IH by (intros Hr; apply Ha; now right). reflexivity.
Qed.

Lemma startsWith_app p r : startsWith p (p ++ r) = true.
Proof.
  induction p as [|c p IH]; [reflexivity|].
  cbn [app startsWith]. now rewrite Z.eqb_refl, IH.
Qed.

Lemma indexOf_from_unfold p s i :
  indexOf_from p s i
  = if startsWith p s then i
    else match s with
         | [] => -1
         | _ :: r => indexOf_from p r (i + 1)
         end.
Proof. destruct s; reflexivity. Qed.

Lemma indexOf_from_found p a r i :
  0 <= i -> 0 <= indexOf_from p (a ++ p ++ r) i.
Proof.
  revert i. induction a as [|c a IH]; intros i Hi; rewrite indexOf_from_unfold.
  - cbn [app]. now rewrite startsWith_app.
  - destruct (startsWith p ((c :: a) ++ p ++ r)); [exact Hi|].
    cbn [app]. apply IH. lia.
Qed.

(** Either nothing is found or the index is not before the start. *)
Lemma indexOf_from_range p s i :
  indexOf_from p s i = -1 \/ i <= indexOf_from p s i.
Proof.
  revert i. induction s as [|c s IH]; intros i; rewrite indexOf_from_unfold.
  - destruct (startsWith p []); [right; lia | now left].
  - destruct (startsWith p (c :: s)); [right; lia|].
    destruct (IH (i + 1)) as [->|H]; [now left | right; lia].
Qed.

Lemma indexOf_at_start s p : (indexOf s p =? 0) = startsWith p s.
Proof.
  unfold indexOf. rewrite indexOf_from_unfold.
  destruct (startsWith p s); [reflexivity|].
  destruct s as [|c s]; [reflexivity|].
  destruct (indexOf_from_range p s (0 + 1)) as [->|H]; [reflexivity|].
  apply Z.eqb_neq. lia.
Qed.

Lemma parts_at_comma meta payload :
  ~ In comma meta -> ~ In comma payload ->
  meta_of (meta ++ comma :: payload) = meta /\
  payload_of (meta ++ comma :: payload) = payload.
Proof.
  intros Hm Hp. unfold meta_of, payload_of.
  rewrite split_at_first, split_without by assumption. now split.
Qed.

Lemma declared_after_colon scheme type rest :
  ~ In colon scheme -> ~ In colon type -> ~ In semicolon type ->
  ~ In colon rest ->
  declared_type (scheme ++ colon :: type ++ semicolon :: rest) = Some type.
Proof.
  intros Hs Ht Hsemi Hr. unfold declared_type.
  rewrite split_at_first by assumption.
  rewrite split_without.
  - change (index ?l 1) with (nth_error l 1); cbn [nth_error].
    now rewrite split_at_first.
  - rewrite in_app_iff. intros [H|[H|H]].
    + now apply Ht.
    + discriminate.
    + now apply Hr.
Qed.

Lemma declared_plain scheme type :
  ~ In colon scheme -> ~ In colon type -> ~ In semicolon type ->
  declared_type (scheme ++ colon :: type) = Some type.
Proof.
  intros Hs Ht Hsemi. unfold declared_type.
  rewrite split_at_first by assumption.
  rewrite split_without by assumption.
  change (index ?l 1) with (nth_error l 1); cbn [nth_error].
  now rewrite split_without.
Qed.

Lemma no_comma_in_meta scheme type rest :
  ~ In comma scheme -> ~ In comma type -> ~ In comma rest ->
  ~ In comma (scheme ++ colon :: type ++ semicolon :: rest).
Proof.
  intros Hs Ht Hr. rewrite in_app_iff. intros [H|[H|H]].
  - now apply Hs.
  - discriminate.
  - rewrite in_app_iff in H. destruct H as [H|[H|H]].
    + now apply Ht.
    + discriminate.
    + now apply Hr.
Qed.

(** The parts of a string [data:<type>;base64,<payload>]. *)
Lemma base64_string_parts (type payload : jsstring) :
  ~ In comma type -> ~ In colon type -> ~ In semicolon type ->
  ~ In comma payload ->
  let dataURL := js "data:" ++ type ++ js ";base64," ++ payload in
  declared_type (meta_of dataURL) = Some type /\
  is_base64 (meta_of dataURL) = true /\
  payload_of dataURL = payload.
Proof.
  intros Hcomma Hcolon Hsemi Hpayload dataURL. subst dataURL.
  replace (js "data:" ++ type ++ js ";base64," ++ payload)
    with ((js "data" ++ colon :: type ++ semicolon :: js "base64")
          ++ comma :: payload)
    by (cbn [js list_ascii_of_string map app];
        rewrite <- !app_assoc; reflexivity).
  assert (Hmeta : ~ In comma (js "data" ++ colon :: type ++ semicolon :: js "base64")).
  { apply no_comma_in_meta; try assumption; cbn; intuition discriminate. }
  destruct (parts_at_comma _ _ Hmeta Hpayload) as [-> ->].
  split.
  { apply declared_after_colon; try assumption; cbn; intuition discriminate. }
  split; [|reflexivity].
  unfold is_base64. apply Z.leb_le. unfold indexOf.
  replace (js "data" ++ colon :: type ++ semicolon :: js "base64")
    with ((js "data" ++ colon :: type ++ [semicolon]) ++ js "base64" ++ [])
    by (rewrite app_nil_r, <- !app_assoc; cbn [app];
        rewrite <- !app_assoc; reflexivity).
  apply indexOf_from_found. lia.
Qed.







(** The constructor keeps a type in lower case as it is. *)
Lemma Blob_type_plain t : plain_type t -> Blob_type t = t.
Proof.
  intros Ht. unfold Blob_type.
  assert (Hprintable : forallb printable t = true).
  { apply forallb_forall. intros c Hc. destruct (Ht c Hc) as [Hr _].
    unfold printable. apply andb_true_intro. split; apply Z.leb_le; lia. }
  rewrite Hprintable.
  induction t as [|c t IH]; [reflexivity|].
  cbn [map]. rewrite IH.
  - destruct (Ht c (or_introl eq_refl)) as [_ Hupper].
    unfold ASCII_lowercase.
    destruct (Z.leb_spec 0x41 c), (Z.leb_spec c 0x5A); cbn [andb];
      try reflexivity.
    exfalso. apply Hupper. lia.
  - intros c' Hc'. apply Ht. now right.
  - apply forallb_forall. intros c' Hc'.
    apply (proj1 (forallb_forall _ _) Hprintable). now right.
Qed.


(** A type with a character that is not printable ASCII is dropped. *)
Lemma Blob_type_other t c :
  In c t -> ~ 0x20 <= c <= 0x7E -> Blob_type t = [].
Proof.
  intros Hc Hout. unfold Blob_type.
  destruct (forallb printable t) eqn:H; [|reflexivity].
  exfalso. apply Hout.
  pose proof (proj1 (forallb_forall _ _) H c Hc) as Hp.
  unfold printable in Hp. apply andb_prop in Hp. destruct Hp as [Hlo Hhi].
  apply Z.leb_le in Hlo, Hhi. lia.
Qed.


End DataURLMore.








(** ** convertImageFile *)

Module ConvertFacts.

Lemma native_format_tests outType :
  native_format outType = true ->
  eqb outType (js "image/svg+xml") = false /\
  eqb outType (js "image/bmp") || eqb outType (js "image/x-ms-bmp") = false.
Proof.
  unfold native_format. intros H.
  destruct (eqb outType (js "image/svg+xml")); [discriminate|].
  destruct (eqb outType (js "image/bmp")); [discriminate|].
  destruct (eqb outType (js "image/x-ms-bmp")); [discriminate|].
  now split.
Qed.


End ConvertFacts.

(** ** The text of the vector wrapper *)

Module SvgFacts.







End SvgFacts.

Section NativePath.

Variable rt : Runtime.
Variable file : File.
Variable img : Image.
Variable outType : jsstring.
Variables quality_arg scale_arg : option number.

Let quality := default_to (Finite (8 # 10)) quality_arg.
Let scale := default_to (of_Z 1) scale_arg.
Let canvas :=
  drawImage rt img (target_dimension rt (naturalWidth img) scale)
    (target_dimension rt (naturalHeight img) scale).
Let native_quality :=
  if eqb outType (js "image/png") then None else Some quality.
Let conversion := convertImageFile rt file outType quality_arg scale_arg.

(** C6 (as amended).  For a native raster type the conversion first calls
    the built-in encoder, with the quality unless the type is PNG.  A blob
    from it is the result.  When the call throws (the encoder is not
    there), and only then, the conversion falls back: it renders the
    embedded-data string at the requested quality and decodes it, and the
    result or the failure of that is the outcome.  When the encoder reports
    failure with a null blob the conversion is rejected at once, with no
    fallback.  So the caller gets an error exactly when the encoder gave
    null, or threw and the fallback failed as well. *)
Theorem native_conversion :
  loadImageFromFile rt file = Ok img ->
  native_format outType = true ->
  hd_error (calls conversion) = Some (Call_toBlob outType native_quality) /\
  (forall blob,
      toBlob rt canvas outType native_quality = toBlob_callback (Some blob) ->
      conversion = {| calls := [Call_toBlob outType native_quality];
                      settled := Resolved blob |}) /\
  (toBlob rt canvas outType native_quality = toBlob_callback None ->
   conversion = {| calls := [Call_toBlob outType native_quality];
                   settled := Rejected (Error "Conversion to blob failed.") |}) /\
  (forall e,
      toBlob rt canvas outType native_quality = toBlob_throws e ->
      conversion = {| calls := [Call_toBlob outType native_quality;
                                Call_toDataURL outType quality];
                      settled := settle_result (fallback rt canvas outType quality) |}) /\
  (rejected conversion <->
   toBlob rt canvas outType native_quality = toBlob_callback None \/
   ((exists e, toBlob rt canvas outType native_quality = toBlob_throws e) /\
    throws (fallback rt canvas outType quality))).
Proof.
  intros Hload Hnative.
  destruct (ConvertFacts.native_format_tests _ Hnative) as [Hsvg Hbmp].
  assert (Hconv :
            conversion
            = logged (Call_toBlob outType native_quality)
                match toBlob rt canvas outType native_quality with
                | toBlob_callback (Some blob) => settle (Resolved blob)
                | toBlob_callback None =>
                    settle (Rejected (Error "Conversion to blob failed."))
                | toBlob_throws e =>
                    logged (Call_toDataURL outType quality)
                      (settle (settle_result (fallback rt canvas outType quality)))
                end).
  { unfold conversion, convertImageFile. rewrite Hload, Hsvg, Hbmp. reflexivity. }
  rewrite Hconv. clear Hconv.
  split; [reflexivity|].
  split; [now intros blob ->|].
  split; [now intros ->|].
  split; [now intros e ->|].
  unfold rejected.
  destruct (toBlob rt canvas outType native_quality) as [e|[blob|]];
    cbn [logged settle settled calls].
  - unfold throws.
    destruct (fallback rt canvas outType quality); cbn [settle_result]; split.
    + intros [].
    + intros [H|[_ H]]; [discriminate | exact H].
    + intros _. right. split; [now exists e | exact I].
    + trivial.
  - split; [intros [] | ].
    intros [H|[[e H] _]]; discriminate.
  - split; [now left | trivial].
Qed.

End NativePath.

Lemma native_conversion_witness :
  hd_error
    (calls (convertImageFile Reference.browser Reference.four_pixel_file
              (js "image/jpeg") (Some (Finite (1 # 2))) None))
  = Some (Call_toBlob (js "image/jpeg") (Some (Finite (1 # 2)))).
Proof.
  exact (proj1 (native_conversion Reference.browser Reference.four_pixel_file
                  {| naturalWidth := 2; naturalHeight := 2;
                     image_data := Reference.four_pixels |}
                  (js "image/jpeg") (Some (Finite (1 # 2))) None
                  eq_refl eq_refl)).
Defined.

(** C6, the counterexample.  In a browser whose encoder answers with a
    null blob the PNG conversion is rejected after the single call to the
    encoder, although the fallback, had it been tried on the same canvas,
    yields a blob. *)
Lemma null_blob_is_not_retried :
  convertImageFile Reference.failing_encoder_browser Reference.four_pixel_file
    (js "image/png") None None
  = {| calls := [Call_toBlob (js "image/png") None];
       settled := Rejected (Error "Conversion to blob failed.") |} /\
  drawImage Reference.failing_encoder_browser
    {| naturalWidth := 2; naturalHeight := 2; image_data := Reference.four_pixels |}
    (of_Z 2) (of_Z 2)
  = Reference.four_pixel_canvas /\
  fallback Reference.failing_encoder_browser Reference.four_pixel_canvas
    (js "image/png") (Finite (8 # 10))
  = Ok {| blob_parts := [BufferPart Reference.four_pixels];
          blob_type := js "image/png" |}.
Proof. repeat split. Qed.

Section VectorWrapper.

Variable rt : Runtime.
Variable file : File.
Variable img : Image.
Variables quality_arg scale_arg : option number.
Variable pngData : jsstring.

Let quality := default_to (Finite (8 # 10)) quality_arg.
Let scale := default_to (of_Z 1) scale_arg.
Let width := target_dimension rt (naturalWidth img) scale.
Let height := target_dimension rt (naturalHeight img) scale.
Let canvas := drawImage rt img width height.


End VectorWrapper.


Section LosslessQuality.

Variable rt : Runtime.
Variable file : File.
Variable scale_arg : option number.
Variables quality1 quality2 : option number.

Let png := js "image/png".
Let run1 := convertImageFile rt file png quality1 scale_arg.
Let run2 := convertImageFile rt file png quality2 scale_arg.

(** C9.  For PNG the quality has no effect on the output: two conversions
    of the same input at the same scale that differ in quality only settle
    alike, with the same payload or the same error.  The built-in encoder
    is called first and gets no quality for PNG, so unless that call throws
    the two conversions are one and the same; when it throws, the fallback
    hands the quality to the data-string renderer, which for PNG pays no
    attention to it. *)
Theorem png_quality :
  PNG_ignores_quality rt ->
  settled run1 = settled run2 /\
  payload run1 = payload run2 /\
  (forall img,
      loadImageFromFile rt file = Ok img ->
      hd_error (calls run1) = Some (Call_toBlob png None) /\
      hd_error (calls run2) = Some (Call_toBlob png None)) /\
  ((forall canvas e, toBlob rt canvas png None <> toBlob_throws e) ->
   run1 = run2 /\
   forallb (fun c => negb (passes_quality c)) (calls run1) = true).
Proof.
  intros Hignored.
  assert (Hrun : forall quality_arg,
             convertImageFile rt file png quality_arg scale_arg
             = match loadImageFromFile rt file with
               | Throw e => settle (Rejected e)
               | Ok img =>
                   let scale := default_to (of_Z 1) scale_arg in
                   let canvas :=
                     drawImage rt img
                       (target_dimension rt (naturalWidth img) scale)
                       (target_dimension rt (naturalHeight img) scale) in
                   logged (Call_toBlob png None)
                     match toBlob rt canvas png None with
                     | toBlob_callback (Some blob) => settle (Resolved blob)
                     | toBlob_callback None =>
                         settle (Rejected (Error "Conversion to blob failed."))
                     | toBlob_throws e =>
                         let quality :=
                           default_to (Finite (8 # 10)) quality_arg in
                         logged (Call_toDataURL png quality)
                           (settle
                              (settle_result (fallback rt canvas png quality)))
                     end
               end).
  { intros quality_arg. unfold convertImageFile.
    destruct (loadImageFromFile rt file); reflexivity. }
  assert (Hsettled : settled run1 = settled run2).
  { unfold run1, run2. rewrite !Hrun.
    destruct (loadImageFromFile rt file) as [img|e]; [|reflexivity].
    cbv zeta. destruct (toBlob rt _ png None) as [e|[blob|]]; try reflexivity.
    cbn [logged settle settled]. unfold fallback.
    now rewrite (Hignored _ (default_to (Finite (8 # 10)) quality1)
                   (default_to (Finite (8 # 10)) quality2)). }
  split; [exact Hsettled|].
  split; [unfold payload; now rewrite Hsettled|].
  split.
  - intros img Hload. unfold run1, run2. rewrite !Hrun, Hload. now split.
  - intros Hnative. unfold run1, run2. rewrite !Hrun.
    destruct (loadImageFromFile rt file) as [img|e]; [|now split].
    cbv zeta.
    pose proof (Hnative
                  (drawImage rt img
                     (target_dimension rt (naturalWidth img)
                        (default_to (of_Z 1) scale_arg))
                     (target_dimension rt (naturalHeight img)
                        (default_to (of_Z 1) scale_arg)))) as Hcanvas.
    destruct (toBlob rt _ png None) as [e|[blob|]].
    + now destruct (Hcanvas e).
    + now split.
    + now split.
Qed.

End LosslessQuality.

Lemma png_quality_witness :
  settled (convertImageFile Reference.legacy_browser Reference.four_pixel_file
             (js "image/png") (Some (of_Z 0)) None)
  = settled (convertImageFile Reference.legacy_browser Reference.four_pixel_file
               (js "image/png") (Some (of_Z 1)) None).
Proof.
  exact (proj1 (png_quality Reference.legacy_browser Reference.four_pixel_file
                  None (Some (of_Z 0)) (Some (of_Z 1))
                  (fun canvas q q' => eq_refl))).
Defined.

(** * Further properties of the code *)

(** ** The bitmap writer *)

Module BMPMore.
Import DataView Writer DataViewFacts WriterFacts BMPFacts.
Local Open Scope cmd_scope.

Lemma put8_mod v : put8 (v mod 256) = put8 v.
Proof.
  unfold put8, setUint8. cbn [le_bytes].
  now rewrite Z.mod_mod by lia.
Qed.

Lemma for_up_ext body body' n :
  (forall i, body i = body' i) ->
  forall from, for_up from n body = for_up from n body'.
Proof.
  intros H. induction n as [|n IH]; intros from; cbn [for_up]; [reflexivity|].
  now rewrite H, IH.
Qed.

Lemma for_down_ext body body' n :
  (forall i, body i = body' i) -> for_down n body = for_down n body'.
Proof.
  intros H. induction n as [|n IH]; cbn [for_down]; [reflexivity|].
  now rewrite H, IH.
Qed.

Lemma channel_of_bytes pixels i :
  channel (map (fun v => v mod 256) pixels) i = channel pixels i mod 256.
Proof.
  unfold channel, index.
  destruct (i <? 0); [reflexivity|].
  rewrite nth_error_map.
  now destruct (nth_error pixels (Z.to_nat i)).
Qed.

Lemma write_pixels_of_bytes pixels width height padding :
  write_pixels (map (fun v => v mod 256) pixels) width height padding
  = write_pixels pixels width height padding.
Proof.
  unfold write_pixels.
  apply for_down_ext. intros y. f_equal.
  apply for_up_ext. intros x. cbv zeta.
  rewrite !channel_of_bytes, !put8_mod. reflexivity.
Qed.

Lemma canvasToBMP_of_bytes c :
  0 < canvas_width c -> 0 < canvas_height c ->
  canvasToBMP (with_byte_data c) = canvasToBMP c.
Proof.
  intros Hw Hh. unfold canvasToBMP, getImageData, with_byte_data.
  cbn [canvas_width canvas_height canvas_data].
  destruct ((canvas_width c =? 0) || (canvas_height c =? 0)); [reflexivity|].
  cbn [rbind].
  destruct (or_RangeError (ArrayBuffer _)) as [buffer|e]; [|reflexivity].
  cbn [rbind].
  destruct (or_RangeError (write_headers _ _ _ _ _)) as [s|e]; [|reflexivity].
  cbn [rbind]. now rewrite write_pixels_of_bytes.
Qed.

Lemma byte_data_is_bytes c : Forall is_byte (canvas_data (with_byte_data c)).
Proof.
  apply Forall_forall. intros v Hv. apply in_map_iff in Hv as (u & <- & _).
  unfold is_byte. apply Z.mod_pos_bound. lia.
Qed.

Lemma u32le_bytes v : Forall is_byte (u32le v).
Proof.
  unfold u32le, is_byte.
  repeat constructor; apply Z.mod_pos_bound; lia.
Qed.

Lemma u16le_bytes v : Forall is_byte (u16le v).
Proof.
  unfold u16le, is_byte.
  repeat constructor; apply Z.mod_pos_bound; lia.
Qed.

Lemma i32le_bytes v : Forall is_byte (i32le v).
Proof. apply u32le_bytes. Qed.

Lemma headers_bytes w h : Forall is_byte (file_header w h ++ info_header w h).
Proof.
  unfold file_header, info_header.
  repeat (apply Forall_app; split);
    try apply u32le_bytes; try apply u16le_bytes; try apply i32le_bytes.
  repeat constructor; unfold is_byte; lia.
Qed.

Lemma pixel_array_bytes c :
  Forall is_byte (canvas_data c) -> Forall is_byte (pixel_array c).
Proof.
  intros Hb. unfold pixel_array.
  apply Forall_flat_map, Forall_forall. intros y _.
  unfold pixel_row. apply Forall_app. split.
  - apply Forall_flat_map, Forall_forall. intros x _.
    unfold bgr, blue, green, red.
    repeat constructor; now apply nth_is_byte.
  - apply Forall_forall. intros v Hv. apply repeat_spec in Hv. subst v.
    unfold is_byte. lia.
Qed.

Lemma nth_of_piece {A} (l : list A) m n j d :
  (j < n)%nat -> nth j (firstn n (skipn m l)) d = nth (m + j) l d.
Proof.
  intros Hj. rewrite nth_firstn.
  destruct (Nat.ltb_spec j n); [|lia].
  apply nth_skipn.
Qed.

Lemma nth_flat_map_const {A B} (f : A -> list B) n l k j d d0 :
  (forall x, length (f x) = n) ->
  (k < length l)%nat -> (j < n)%nat ->
  nth (k * n + j) (flat_map f l) d = nth j (f (nth k l d0)) d.
Proof.
  intros Hf Hk Hj.
  rewrite <- (piece_of_flat_map f n l k d0 Hf Hk).
  symmetry. now apply nth_of_piece.
Qed.

End BMPMore.

(** X1.  The row stride is a multiple of 4, it is not below three bytes
    per pixel, and it is the least such number: the padding of a row is 0,
    1, 2 or 3 bytes. *)
Theorem rowStride_least (w : Z) :
  rowStride w mod 4 = 0 /\
  w * 3 <= rowStride w /\
  (forall m, m mod 4 = 0 -> w * 3 <= m -> rowStride w <= m) /\
  0 <= rowStride w - w * 3 <= 3.
Proof.
  unfold rowStride. split; [|split; [|split]].
  - apply Z.mod_mul. discriminate.
  - Z.to_euclidean_division_equations. lia.
  - intros m Hm Hle. Z.to_euclidean_division_equations. lia.
  - Z.to_euclidean_division_equations. lia.
Qed.

Section BitmapMore.
Import DataView BMPFacts BMPMore.

Variable c : Canvas.
Let columns := Z.to_nat (canvas_width c).
Let rows := Z.to_nat (canvas_height c).
Let row_bytes := Z.to_nat (rowStride (canvas_width c)).

(** X2.  In the file of an RGBA buffer the pixel in column [x] of source
    row [y] lies at offset [54 + (h - 1 - y) * rowStride + 3 * x], as its
    blue, green and red bytes in that order, and every byte of a row past
    its [3 * w] pixel bytes is zero. *)
Theorem bmp_pixel_address :
  RGBA_buffer c ->
  exists out,
    canvasToBMP c
    = Ok {| blob_parts := [BufferPart out]; blob_type := js "image/bmp" |} /\
    (forall x y,
        (x < columns)%nat -> (y < rows)%nat ->
        nth (54 + (rows - 1 - y) * row_bytes + 3 * x) out 0 = blue c x y /\
        nth (54 + (rows - 1 - y) * row_bytes + 3 * x + 1) out 0 = green c x y /\
        nth (54 + (rows - 1 - y) * row_bytes + 3 * x + 2) out 0 = red c x y) /\
    (forall r j,
        (r < rows)%nat -> (3 * columns <= j < row_bytes)%nat ->
        nth (54 + r * row_bytes + j) out 0 = 0).
Proof.
  intros Hbuf. pose proof Hbuf as (Hw & Hh & _).
  pose proof (stride_covers (canvas_width c)) as Hcover.
  eexists. rewrite (canvasToBMP_of_buffer c Hbuf).
  split; [reflexivity|].
  assert (Hrow : forall y, length (pixel_row c y) = row_bytes).
  { intros y. apply pixel_row_length. lia. }
  assert (Hat : forall k j,
             (k < rows)%nat -> (j < row_bytes)%nat ->
             nth (54 + k * row_bytes + j)
               (file_header (canvas_width c) (canvas_height c)
                ++ info_header (canvas_width c) (canvas_height c)
                ++ pixel_array c) 0
             = nth j (pixel_row c (rows - 1 - k)) 0).
  { intros k j Hk Hj.
    rewrite app_assoc, app_nth2 by (rewrite headers_length; lia).
    rewrite headers_length.
    replace (54 + k * row_bytes + j - 54)%nat with (k * row_bytes + j)%nat by lia.
    unfold pixel_array.
    rewrite (nth_flat_map_const _ row_bytes _ k j 0 0%nat Hrow)
      by (try rewrite length_rev, length_seq; assumption).
    f_equal. f_equal.
    rewrite rev_nth by (rewrite length_seq; exact Hk).
    rewrite length_seq, seq_nth by (fold rows; lia). fold rows. lia. }
  assert (HS : (3 * columns <= row_bytes)%nat)
    by (unfold columns, row_bytes; rewrite rowStride_stride; lia).
  assert (Hpix : forall x y t,
             (x < columns)%nat -> (t < 3)%nat ->
             nth (3 * x + t) (pixel_row c y) 0 = nth t (bgr c y x) 0).
  { intros x y t Hx Ht. unfold pixel_row.
    rewrite app_nth1
      by (rewrite (flat_map_length_const _ 3%nat) by reflexivity;
          rewrite length_seq; fold columns; lia).
    replace (3 * x + t)%nat with (x * 3 + t)%nat by lia.
    rewrite (nth_flat_map_const _ 3%nat _ x t 0 0%nat)
      by (try reflexivity; try rewrite length_seq; fold columns; lia).
    now rewrite seq_nth by (fold columns; lia). }
  split.
  - intros x y Hx Hy.
    assert (Hk : (rows - 1 - (rows - 1 - y) = y)%nat) by lia.
    repeat split.
    + rewrite (Hat (rows - 1 - y)%nat (3 * x)%nat) by lia.
      rewrite Hk. replace (3 * x)%nat with (3 * x + 0)%nat by lia.
      now rewrite Hpix by lia.
    + rewrite <- Nat.add_assoc, (Hat (rows - 1 - y)%nat (3 * x + 1)%nat) by lia.
      rewrite Hk. now rewrite Hpix by lia.
    + rewrite <- Nat.add_assoc, (Hat (rows - 1 - y)%nat (3 * x + 2)%nat) by lia.
      rewrite Hk. now rewrite Hpix by lia.
  - intros r j Hr Hj. rewrite Hat by lia.
    unfold pixel_row.
    rewrite app_nth2
      by (rewrite (flat_map_length_const _ 3%nat) by reflexivity;
          rewrite length_seq; fold columns; lia).
    apply nth_repeat.
Qed.

(** X3.  For a canvas of positive width and height the writer never
    throws, whatever its data holds: the file has [54 + rowStride * h]
    bytes, each in 0..255, and is the file of the same canvas with every
    value reduced modulo 256, a value missing from the data being written
    as 0. *)
Theorem canvasToBMP_total :
  0 < canvas_width c -> 0 < canvas_height c ->
  exists out,
    canvasToBMP c
    = Ok {| blob_parts := [BufferPart out]; blob_type := js "image/bmp" |} /\
    byteLength out = 54 + rowStride (canvas_width c) * canvas_height c /\
    Forall is_byte out /\
    out = file_header (canvas_width c) (canvas_height c)
          ++ info_header (canvas_width c) (canvas_height c)
          ++ pixel_array (with_byte_data c).
Proof.
  intros Hw Hh.
  eexists. rewrite <- (canvasToBMP_of_bytes c Hw Hh).
  rewrite (canvasToBMP_layout (with_byte_data c) Hw Hh (byte_data_is_bytes c)).
  cbn [with_byte_data canvas_width canvas_height].
  split; [reflexivity|].
  split.
  { exact (layout_length (with_byte_data c) ltac:(cbn; lia) ltac:(cbn; lia)). }
  split; [|reflexivity].
  rewrite app_assoc. apply Forall_app. split.
  - apply headers_bytes.
  - apply pixel_array_bytes, byte_data_is_bytes.
Qed.

End BitmapMore.

Lemma bmp_pixel_address_witness :
  exists out,
    canvasToBMP Reference.four_pixel_canvas
    = Ok {| blob_parts := [BufferPart out]; blob_type := js "image/bmp" |} /\
    nth 54 out 0 = 255 /\ nth 55 out 0 = 0 /\ nth 56 out 0 = 0 /\
    nth 60 out 0 = 0.
Proof.
  destruct (bmp_pixel_address Reference.four_pixel_canvas)
    as (out & Hout & Hpixel & Hpad).
  - repeat split; try reflexivity.
    repeat constructor; unfold is_byte; lia.
  - exists out. split; [exact Hout|].
    destruct (Hpixel 0%nat 1%nat) as (Hb & Hg & Hr); [cbn; lia | cbn; lia |].
    split; [exact Hb|]. split; [exact Hg|]. split; [exact Hr|].
    apply (Hpad 0%nat 6%nat); cbn; lia.
Defined.

Lemma canvasToBMP_total_witness :
  exists out,
    canvasToBMP {| canvas_width := 1; canvas_height := 1; canvas_data := [300; 7] |}
    = Ok {| blob_parts := [BufferPart out]; blob_type := js "image/bmp" |} /\
    DataView.byteLength out = 58 /\
    skipn 54 out = [0; 7; 44; 0].
Proof.
  destruct (canvasToBMP_total
              {| canvas_width := 1; canvas_height := 1; canvas_data := [300; 7] |})
    as (out & Hout & Hlen & _ & Hlayout); [reflexivity | reflexivity |].
  exists out. split; [exact Hout|]. split; [exact Hlen|].
  rewrite Hlayout. reflexivity.
Defined.


(** X4.  On a string of the form [data:<type>;base64,<payload>], with
    neither comma, colon nor semicolon in the type and no comma in the
    payload, the conversion hands exactly the payload to [atob]; it fails as
    [atob] fails, and otherwise returns the bytes [atob] gave (each code
    unit as a byte) in a blob whose type is that type as the blob
    constructor stores it: in ASCII lower case, the empty string if the
    type has a character outside U+0020 to U+007E, and the type itself
    when it is in lower case already. *)
Theorem dataURLToBlob_base64_string (rt : Runtime) (type payload : jsstring) :
  ~ In comma type -> ~ In colon type -> ~ In semicolon type ->
  ~ In comma payload ->
  dataURLToBlob rt (js "data:" ++ type ++ js ";base64," ++ payload)
  = match atob rt payload with
    | Ok binary => Ok {| blob_parts := [BufferPart (map low_byte binary)];
                         blob_type := Blob_type type |}
    | Throw e => Throw e
    end /\
  (plain_type type -> Blob_type type = type) /\
  (forall c, In c type -> ~ 0x20 <= c <= 0x7E -> Blob_type type = []).
Proof.
  intros Hcomma Hcolon Hsemi Hpayload.
  destruct (DataURLMore.base64_string_parts type payload
              Hcomma Hcolon Hsemi Hpayload) as (Htype & Hbase & Hpay).
  split; [|split].
  - rewrite DataURLFacts.dataURLToBlob_parts.
    unfold decoder. rewrite Htype, Hbase, Hpay. reflexivity.
  - apply DataURLMore.Blob_type_plain.
  - apply DataURLMore.Blob_type_other.
Qed.

Lemma dataURLToBlob_base64_string_witness :
  dataURLToBlob Reference.browser (js "data:IMAGE/PNG;base64,QUJD")
  = Ok {| blob_parts := [BufferPart (js "ABC")]; blob_type := js "image/png" |}.
Proof.
  refine (proj1 (dataURLToBlob_base64_string Reference.browser
                   (js "IMAGE/PNG") (js "QUJD") _ _ _ _));
    cbn; intuition discriminate.
Defined.

(** X5.  On a string of the form [data:<type>,<payload>] whose part before
    the comma does not contain the text "base64", with neither comma, colon
    nor semicolon in the type and no comma in the payload, the conversion
    hands exactly the payload to [decodeURIComponent]; it fails as that
    fails, and otherwise returns one byte per code unit of the decoded text
    in a blob whose type is that type as the blob constructor stores it (in
    ASCII lower case, or empty; the type itself when it is in lower case
    already). *)
Theorem dataURLToBlob_percent_string (rt : Runtime) (type payload : jsstring) :
  ~ In comma type -> ~ In colon type -> ~ In semicolon type ->
  ~ In comma payload ->
  is_base64 (js "data:" ++ type) = false ->
  dataURLToBlob rt (js "data:" ++ type ++ js "," ++ payload)
  = match decodeURIComponent rt payload with
    | Ok decoded => Ok {| blob_parts := [BufferPart (map low_byte decoded)];
                          blob_type := Blob_type type |}
    | Throw e => Throw e
    end /\
  (plain_type type -> Blob_type type = type) /\
  (forall c, In c type -> ~ 0x20 <= c <= 0x7E -> Blob_type type = []).
Proof.
  intros Hcomma Hcolon Hsemi Hpayload Hplain.
  split; [|split].
  - replace (js "data:" ++ type ++ js "," ++ payload)
      with ((js "data:" ++ type) ++ comma :: payload)
      by (rewrite <- !app_assoc; reflexivity).
    assert (Hmeta : ~ In comma (js "data:" ++ type)).
    { rewrite in_app_iff. intros [H|H]; [|now apply Hcomma].
      revert H. cbn. intuition discriminate. }
    rewrite DataURLFacts.dataURLToBlob_parts.
    destruct (DataURLMore.parts_at_comma _ _ Hmeta Hpayload) as [-> ->].
    unfold decoder. rewrite Hplain.
    change (js "data:" ++ type) with (js "data" ++ colon :: type).
    rewrite DataURLMore.declared_plain
      by (try assumption; cbn; intuition discriminate).
    reflexivity.
  - apply DataURLMore.Blob_type_plain.
  - apply DataURLMore.Blob_type_other.
Qed.

Lemma dataURLToBlob_percent_string_witness :
  dataURLToBlob Reference.browser (js "data:text/plain,a%20b")
  = Ok {| blob_parts := [BufferPart (js "a b")]; blob_type := js "text/plain" |}.
Proof.
  refine (proj1 (dataURLToBlob_percent_string Reference.browser
                   (js "text/plain") (js "a%20b") _ _ _ _ eq_refl));
    cbn; intuition discriminate.
Defined.

(** ** The conversion as a whole *)

Module ConvertMore.

Lemma eqb_true s t : eqb s t = true <-> s = t.
Proof.
  unfold eqb. destruct (list_eq_dec Z.eq_dec s t); split; congruence.
Qed.

Lemma eqb_same s : eqb s s = true.
Proof. now apply eqb_true. Qed.

End ConvertMore.

Section ConversionMore.
Import DataView BMPFacts BMPMore.

Variable rt : Runtime.
Variable file : File.
Variable img : Image.
Variable outType : jsstring.
Variables quality_arg scale_arg : option number.

Let quality := default_to (Finite (8 # 10)) quality_arg.
Let scale := default_to (of_Z 1) scale_arg.
Let canvas :=
  drawImage rt img (target_dimension rt (naturalWidth img) scale)
    (target_dimension rt (naturalHeight img) scale).
Let native_quality :=
  if eqb outType (js "image/png") then None else Some quality.
Let conversion := convertImageFile rt file outType quality_arg scale_arg.

(** X6.  Whatever the browser, the file and the arguments, a conversion
    calls the canvas encoders in one of four ways: not at all; [toDataURL]
    once, for PNG, when the output type is SVG; [toBlob] once, for the
    output type; or [toBlob] and then [toDataURL], both for the output
    type.  A file that does not decode is rejected with "Failed to load
    image" before any call, and for the two BMP types no encoder is ever
    called. *)
Theorem encoder_calls :
  (calls conversion = [] \/
   calls conversion = [Call_toDataURL (js "image/png") quality]
     /\ outType = js "image/svg+xml" \/
   calls conversion = [Call_toBlob outType native_quality] \/
   calls conversion = [Call_toBlob outType native_quality;
                       Call_toDataURL outType quality]) /\
  (decode_image rt file = None ->
   conversion = {| calls := [];
                   settled := Rejected (Error "Failed to load image") |}) /\
  (outType = js "image/bmp" \/ outType = js "image/x-ms-bmp" ->
   calls conversion = []).
Proof.
  unfold conversion, convertImageFile, loadImageFromFile.
  split; [|split].
  - destruct (decode_image rt file) as [i|]; [|now left].
    destruct (eqb outType (js "image/svg+xml")) eqn:Hsvg.
    { right; left. split; [reflexivity | now apply ConvertMore.eqb_true]. }
    destruct (eqb outType (js "image/bmp") || eqb outType (js "image/x-ms-bmp"));
      [now left|].
    destruct (toBlob rt _ outType _) as [e|[blob|]]; cbn [logged settle calls].
    + right; right; right. reflexivity.
    + right; right; left. reflexivity.
    + right; right; left. reflexivity.
  - now intros ->.
  - intros Hbmp. destruct (decode_image rt file) as [i|]; [|reflexivity].
    destruct Hbmp as [-> | ->]; reflexivity.
Qed.

(** X7.  For either BMP type, once the image has loaded and the canvas has
    positive dimensions, the conversion resolves, without calling an
    encoder, to a blob of type [image/bmp] (also when [image/x-ms-bmp] was
    asked for) that holds 54 bytes of headers and the padded rows, and the
    quality argument has no influence on the result. *)
Theorem bmp_conversion :
  loadImageFromFile rt file = Ok img ->
  outType = js "image/bmp" \/ outType = js "image/x-ms-bmp" ->
  0 < canvas_width canvas -> 0 < canvas_height canvas ->
  exists out,
    conversion
    = {| calls := [];
         settled := Resolved {| blob_parts := [BufferPart out];
                                blob_type := js "image/bmp" |} |} /\
    byteLength out = 54 + rowStride (canvas_width canvas) * canvas_height canvas /\
    forall other_quality,
      convertImageFile rt file outType other_quality scale_arg = conversion.
Proof.
  intros Hload Hbmp Hw Hh.
  assert (Hconv : forall q,
             convertImageFile rt file outType q scale_arg
             = settle (settle_result (canvasToBMP canvas))).
  { intros q. unfold convertImageFile. rewrite Hload.
    destruct Hbmp as [-> | ->]; reflexivity. }
  unfold conversion. rewrite (Hconv quality_arg).
  rewrite <- (canvasToBMP_of_bytes canvas Hw Hh).
  rewrite (canvasToBMP_layout (with_byte_data canvas) Hw Hh
             (byte_data_is_bytes canvas)).
  eexists. split; [reflexivity|].
  split.
  - exact (layout_length (with_byte_data canvas) ltac:(cbn; lia) ltac:(cbn; lia)).
  - intros q. rewrite (Hconv q).
    rewrite <- (canvasToBMP_of_bytes canvas Hw Hh).
    rewrite (canvasToBMP_layout (with_byte_data canvas) Hw Hh
               (byte_data_is_bytes canvas)).
    reflexivity.
Qed.

(** X8.  When [toBlob] throws for a native type and [toDataURL] answers
    with a well-formed string [data:<type>;base64,<payload>] that [atob]
    decodes, the conversion resolves to the decoded bytes in a blob whose
    type is the one the string declares (as the blob constructor stores it:
    in ASCII lower case, and as it is when in lower case already), not the
    output type that was asked for. *)
Theorem fallback_blob_type (e : exn) (type payload binary : jsstring) :
  loadImageFromFile rt file = Ok img ->
  native_format outType = true ->
  toBlob rt canvas outType native_quality = toBlob_throws e ->
  toDataURL rt canvas outType quality
  = Ok (js "data:" ++ type ++ js ";base64," ++ payload) ->
  ~ In comma type -> ~ In colon type -> ~ In semicolon type ->
  ~ In comma payload ->
  atob rt payload = Ok binary ->
  settled conversion
  = Resolved {| blob_parts := [BufferPart (map low_byte binary)];
                blob_type := Blob_type type |} /\
  (plain_type type -> Blob_type type = type).
Proof.
  intros Hload Hnative Hthrows Hdata Hcomma Hcolon Hsemi Hpayload Hatob.
  split; [|apply DataURLMore.Blob_type_plain].
  destruct (ConvertFacts.native_format_tests _ Hnative) as [Hsvg Hbmp].
  destruct (DataURLMore.base64_string_parts type payload
              Hcomma Hcolon Hsemi Hpayload) as (Htype & Hbase & Hpay).
  unfold conversion, convertImageFile.
  rewrite Hload, Hsvg, Hbmp.
  fold scale. fold canvas. fold quality. fold native_quality.
  rewrite Hthrows. cbn [logged settle settled].
  fold quality. rewrite Hdata. cbn [rbind].
  rewrite DataURLFacts.dataURLToBlob_parts.
  unfold decoder. rewrite Htype, Hbase, Hpay, Hatob. reflexivity.
Qed.

End ConversionMore.

Lemma bmp_conversion_witness :
  exists out,
    convertImageFile Reference.browser Reference.four_pixel_file
      (js "image/x-ms-bmp") (Some (Finite (1 # 2))) None
    = {| calls := [];
         settled := Resolved {| blob_parts := [BufferPart out];
                                blob_type := js "image/bmp" |} |} /\
    DataView.byteLength out = 70.
Proof.
  destruct (bmp_conversion Reference.browser Reference.four_pixel_file
              {| naturalWidth := 2; naturalHeight := 2;
                 image_data := Reference.four_pixels |}
              (js "image/x-ms-bmp") (Some (Finite (1 # 2))) None
              eq_refl (or_intror eq_refl) eq_refl eq_refl)
    as (out & Hout & Hlen & _).
  exists out. split; [exact Hout | exact Hlen].
Defined.

Lemma fallback_blob_type_witness :
  settled (convertImageFile Reference.png_only_browser Reference.four_pixel_file
             (js "image/webp") None None)
  = Resolved {| blob_parts := [BufferPart Reference.four_pixels];
                blob_type := js "image/png" |}.
Proof.
  refine (proj1
            (fallback_blob_type Reference.png_only_browser
               Reference.four_pixel_file
               {| naturalWidth := 2; naturalHeight := 2;
                  image_data := Reference.four_pixels |}
               (js "image/webp") None None TypeError (js "image/png")
               (Reference.base64_encode Reference.four_pixels)
               Reference.four_pixels
               eq_refl eq_refl eq_refl eq_refl _ _ _ _ eq_refl));
    vm_compute; intuition discriminate.
Defined.

(** ** The arguments the convert button passes on *)

Module ClampFacts.

Lemma Qleb_true a b : Qleb a b = true -> (a <= b)%Q.
Proof. apply Qle_bool_iff. Qed.

Lemma Qleb_false a b : Qleb a b = false -> (b <= a)%Q.
Proof.
  intros H. apply Qlt_le_weak, Qnot_le_lt.
  intros Hle. apply Qle_bool_iff in Hle. unfold Qleb in H. congruence.
Qed.

(** [Math.max(lo, Math.min(hi, x))] for [lo <= hi]: NaN exactly when [x]
    is, and otherwise a finite value from [lo] to [hi]. *)
Lemma clamp lo hi x :
  (lo <= hi)%Q ->
  match Math_max (Finite lo) (Math_min (Finite hi) x) with
  | NaN => x = NaN
  | Infinity _ => False
  | Finite q => (lo <= q <= hi)%Q /\ x <> NaN
  end.
Proof.
  intros Hlohi. destruct x as [|[|]|q]; cbn [Math_min Math_max].
  - reflexivity.
  - split; [split; [apply Qle_refl | exact Hlohi] | discriminate].
  - destruct (Qleb lo hi) eqn:H.
    + split; [split; [exact Hlohi | apply Qle_refl] | discriminate].
    + apply Qleb_false in H.
      split; [split; [apply Qle_refl | exact Hlohi] | discriminate].
  - destruct (Qleb hi q) eqn:Hhi; cbn [Math_max].
    + destruct (Qleb lo hi) eqn:H.
      * split; [split; [exact Hlohi | apply Qle_refl] | discriminate].
      * split; [split; [apply Qle_refl | exact Hlohi] | discriminate].
    + apply Qleb_false in Hhi.
      destruct (Qleb lo q) eqn:Hlo.
      * apply Qleb_true in Hlo. split; [now split | discriminate].
      * split; [split; [apply Qle_refl | exact Hlohi] | discriminate].
Qed.

End ClampFacts.

(** X9.  Whatever the rounding of the browser and whatever number the
    scale control reads as, the scale handed to the conversion is never
    infinite: it is NaN exactly when the reading divided by 100 is NaN, and
    otherwise a finite value from 0.2 to 2. *)
Theorem button_scale_range (rt : Runtime) (reading : number) :
  match button_scale rt reading with
  | NaN => div (fl rt) reading (of_Z 100) = NaN
  | Infinity _ => False
  | Finite q => (2 # 10 <= q <= 2)%Q /\ div (fl rt) reading (of_Z 100) <> NaN
  end.
Proof.
  unfold button_scale.
  exact (ClampFacts.clamp (2 # 10) (inject_Z 2)
           (div (fl rt) reading (of_Z 100)) ltac:(discriminate)).
Qed.

(** X10.  Provided the rounding of the browser maps the quotients from 0
    to 1 to finite values from 0 to 1 (as rounding to nearest does, 0 and 1
    being binary64 values), the quality handed to the conversion is never
    infinite: it is NaN exactly when the text of the quality control is
    not empty and reads as NaN, and in every other case a finite value
    from 0 to 1.  An empty text counts as 80. *)
Theorem button_quality_range (h : Page.Host) (value : jsstring) :
  (forall q, (0 <= q <= 1)%Q ->
             exists r, fl (Page.runtime h) q = Finite r /\ (0 <= r <= 1)%Q) ->
  match Page.button_quality h value with
  | NaN => Page.truthy value = true /\ Page.Number_of_string h value = NaN
  | Infinity _ => False
  | Finite r =>
      (0 <= r <= 1)%Q /\
      (Page.truthy value = true -> Page.Number_of_string h value <> NaN)
  end /\
  (Page.button_quality h value = NaN
   <-> Page.truthy value = true /\ Page.Number_of_string h value = NaN) /\
  Page.button_quality h [] = fl (Page.runtime h) (80 / 100)%Q.
Proof.
  intros Hfl.
  assert (Hcases :
            match Page.button_quality h value with
            | NaN => Page.truthy value = true /\
                     Page.Number_of_string h value = NaN
            | Infinity _ => False
            | Finite r =>
                (0 <= r <= 1)%Q /\
                (Page.truthy value = true ->
                 Page.Number_of_string h value <> NaN)
            end).
  2: { split; [exact Hcases|]. split; [|reflexivity].
       destruct (Page.button_quality h value) as [|s|r].
       - split; [intros _; exact Hcases | reflexivity].
       - destruct Hcases.
       - split; [discriminate|].
         intros [Ht Hn]. destruct Hcases as [_ H]. now destruct (H Ht). }
  unfold Page.button_quality.
  set (reading := if Page.truthy value then Page.Number_of_string h value
                  else of_Z 80).
  pose proof (ClampFacts.clamp (inject_Z 0) (inject_Z 100) reading
                ltac:(discriminate)) as Hclamp.
  change (of_Z 0) with (Finite (inject_Z 0)).
  change (of_Z 100) with (Finite (inject_Z 100)) at 1.
  destruct (Math_max (Finite (inject_Z 0)) (Math_min (Finite (inject_Z 100)) reading))
    as [|s|c].
  - cbn [div]. subst reading.
    destruct (Page.truthy value); [now split | discriminate].
  - destruct Hclamp.
  - destruct Hclamp as [[Hlo Hhi] Hreading].
    unfold div, of_Z. change (Qis_zero (inject_Z 100)) with false. cbn iota.
    destruct (Hfl (c / inject_Z 100)%Q) as (r & -> & Hr).
    + split.
      * apply Qle_shift_div_l; [reflexivity|].
        rewrite Qmult_0_l. exact Hlo.
      * apply Qle_shift_div_r; [reflexivity|].
        rewrite Qmult_1_l. exact Hhi.
    + split; [exact Hr|].
      intros Htruthy. subst reading. now rewrite Htruthy in Hreading.
Qed.

Lemma button_quality_range_witness :
  (Page.button_quality (Sample.host Reference.browser) (js "high") = NaN
   <-> Page.truthy (js "high") = true /\
       Sample.digits_number (js "high") = NaN) /\
  Page.button_quality (Sample.host Reference.browser) [] = Finite (80 / 100).
Proof.
  exact (proj2 (button_quality_range (Sample.host Reference.browser)
                  (js "high")
                  (fun q Hq => ex_intro _ q (conj eq_refl Hq)))).
Defined.

(** ** The name of the download *)

Module NameFacts.
Import Page.

Lemma split_nonempty s sep : split s sep <> [].
Proof.
  destruct s as [|c r]; cbn [split]; [discriminate|].
  destruct (c =? sep); [discriminate|].
  destruct (split r sep); discriminate.
Qed.

(** Splitting at a separator splits both sides of it. *)
Lemma split_app s t sep :
  split (s ++ sep :: t) sep = split s sep ++ split t sep.
Proof.
  induction s as [|c r IH]; cbn [app split].
  - now rewrite Z.eqb_refl.
  - rewrite IH. destruct (c =? sep); [reflexivity|].
    pose proof (split_nonempty r sep) as Hne.
    destruct (split r sep) as [|h t']; [congruence | reflexivity].
Qed.

(** No piece of a split contains the separator. *)
Lemma split_pieces s sep piece : In piece (split s sep) -> ~ In sep piece.
Proof.
  revert piece. induction s as [|c r IH]; intros piece; cbn [split].
  - intros [<-|[]] [].
  - destruct (Z.eqb_spec c sep) as [->|Hc].
    + intros [<-|H]; [intros [] | now apply IH].
    + pose proof (split_nonempty r sep) as Hne.
      destruct (split r sep) as [|h t]; [congruence|].
      intros [<-|H].
      * intros [Heq|Hin]; [congruence|].
        apply (IH h); [now left | exact Hin].
      * apply IH. now right.
Qed.

Lemma extension_body_dot a b : extension_body (a ++ dot :: b) = false.
Proof.
  unfold extension_body. rewrite forallb_app. cbn [forallb].
  rewrite Z.eqb_refl, orb_true_r. cbn [negb andb].
  now rewrite !andb_false_r.
Qed.

Lemma strip_extension_app base ext :
  extension_body ext = true -> strip_extension (base ++ dot :: ext) = base.
Proof.
  intros Hext. induction base as [|c r IH]; cbn [app strip_extension].
  - now rewrite Z.eqb_refl, Hext.
  - now rewrite extension_body_dot, andb_false_r, IH.
Qed.

Lemma download_extension_subtype family sub :
  ~ In slash family -> ~ In slash sub -> truthy sub = true ->
  includes (family ++ slash :: sub) (js "svg") = false ->
  download_extension (family ++ slash :: sub) = sub.
Proof.
  intros Hfamily Hsub Htruthy Hsvg. unfold download_extension.
  rewrite Hsvg, split_app.
  rewrite (DataURLMore.split_without family) by assumption.
  rewrite (DataURLMore.split_without sub) by assumption.
  change (index ?l 1) with (nth_error l 1). cbn [app nth_error].
  now rewrite Htruthy.
Qed.

End NameFacts.

(** X11.  For a file named [<base>.<ext>], where the extension is not
    empty and has neither a dot nor a slash, and a format [<family>/<sub>]
    without "svg" in it, the download is named [<base>.<sub>]: the last
    extension only is replaced, by the subtype of the format.  For the SVG
    format it is named [<base>.svg]. *)
Theorem download_filename_spec (current : Page.UserFile)
  (base ext family sub : jsstring) :
  Page.file_name current = base ++ Page.dot :: ext ->
  Page.extension_body ext = true ->
  ~ In Page.slash family -> ~ In Page.slash sub -> Page.truthy sub = true ->
  Page.includes (family ++ Page.slash :: sub) (js "svg") = false ->
  Page.download_filename (family ++ Page.slash :: sub) (Some current)
  = base ++ js "." ++ sub /\
  Page.download_filename (js "image/svg+xml") (Some current)
  = base ++ js ".svg".
Proof.
  intros Hname Hext Hfamily Hsub Htruthy Hsvg.
  unfold Page.download_filename, Page.download_name.
  rewrite Hname.
  replace (Page.truthy (base ++ Page.dot :: ext)) with true
    by (now destruct base).
  rewrite NameFacts.strip_extension_app by assumption.
  rewrite NameFacts.download_extension_subtype by assumption.
  split; reflexivity.
Qed.

Lemma download_filename_spec_witness :
  Page.download_filename (js "image/png") (Some Sample.photo)
  = js "holiday.photo.png" /\
  Page.download_filename (js "image/svg+xml") (Some Sample.photo)
  = js "holiday.photo.svg".
Proof.
  refine (download_filename_spec Sample.photo (js "holiday.photo") (js "jpeg")
            (js "image") (js "png") eq_refl eq_refl _ _ eq_refl eq_refl);
    cbn; intuition discriminate.
Defined.

(** X12.  What removing the extension does to any name: either the name
    is [<base>.<ext>] with an extension that is not empty and has neither a
    dot nor a slash, and the result is the base; or the name has no such
    ending at all, and it is returned unchanged. *)
Theorem strip_extension_cases (name : jsstring) :
  (exists base ext,
      name = base ++ Page.dot :: ext /\ Page.extension_body ext = true /\
      Page.strip_extension name = base) \/
  ((forall base ext, name = base ++ Page.dot :: ext ->
                     Page.extension_body ext = false) /\
   Page.strip_extension name = name).
Proof.
  induction name as [|c r IH].
  - right. split; [|reflexivity].
    intros [|b base] ext H; discriminate.
  - cbn [Page.strip_extension].
    destruct ((c =? Page.dot) && Page.extension_body r) eqn:Hhere.
    + apply andb_prop in Hhere. destruct Hhere as [Hc Hr].
      apply Z.eqb_eq in Hc. subst c.
      left. exists [], r. now repeat split.
    + destruct IH as [(base & ext & -> & Hext & Hstrip) | [Hnone Hsame]].
      * left. exists (c :: base), ext. rewrite Hstrip. now repeat split.
      * right. rewrite Hsame. split; [|reflexivity].
        intros [|b base] ext H; cbn [app] in H.
        -- injection H as -> ->.
           now rewrite Z.eqb_refl in Hhere.
        -- injection H as _ ->. now apply (Hnone base ext).
Qed.

(** X13.  Whatever the value of the format control, the extension of the
    download is not empty and contains no slash. *)
Theorem download_extension_safe (value : jsstring) :
  Page.truthy (Page.download_extension value) = true /\
  ~ In Page.slash (Page.download_extension value).
Proof.
  unfold Page.download_extension.
  destruct (Page.includes value (js "svg")).
  { split; [reflexivity | cbn; intuition discriminate]. }
  destruct (index (split value Page.slash) 1) as [e|] eqn:He.
  - destruct (Page.truthy e) eqn:Htruthy.
    + split; [exact Htruthy|].
      apply (NameFacts.split_pieces value).
      unfold index in He. cbn [Z.ltb Z.compare] in He.
      now apply nth_error_In in He.
    + split; [reflexivity | cbn; intuition discriminate].
  - split; [reflexivity | cbn; intuition discriminate].
Qed.

(** ** Pasting *)

(** X14.  Of the items pasted, the first one whose type begins with
    "image" decides alone: its file is the one handled, and when it has no
    file nothing is handled, whatever items follow.  Without such an item
    nothing is handled. *)
Theorem pasted_file_first (before after : list (jsstring * option Page.UserFile))
  (type : jsstring) (file : option Page.UserFile) :
  Forall (fun item => startsWith (js "image") (fst item) = false) before ->
  startsWith (js "image") type = true ->
  Page.pasted_file (before ++ (type, file) :: after) = file /\
  Page.pasted_file before = None.
Proof.
  intros Hbefore Htype.
  induction Hbefore as [|[t f] rest Ht _ IH]; cbn [app Page.pasted_file].
  - rewrite DataURLMore.indexOf_at_start, Htype. now split.
  - cbn [fst] in Ht. rewrite DataURLMore.indexOf_at_start, Ht. exact IH.
Qed.

Lemma pasted_file_first_witness :
  Page.pasted_file [(js "text/plain", None); (js "image/png", None);
                    (js "image/gif", Some Sample.logo)] = None /\
  Page.pasted_file [(js "text/plain", None)] = None.
Proof.
  apply (pasted_file_first [(js "text/plain", None)]
           [(js "image/gif", Some Sample.logo)] (js "image/png") None).
  - repeat constructor.
  - reflexivity.
Defined.

(** ** The link of the current page *)

(** X15.  The name that the links of the navigation are compared with is
    never empty and contains no slash.  For a path that ends in
    [/<name>] it is the name, and for a path that ends in a slash it is
    "index.html". *)
Theorem current_path_spec (pathname : jsstring) :
  Page.truthy (Navigation.current_path pathname) = true /\
  ~ In Page.slash (Navigation.current_path pathname) /\
  (forall dir name,
      pathname = dir ++ Page.slash :: name -> ~ In Page.slash name ->
      Navigation.current_path pathname
      = if Page.truthy name then name else js "index.html").
Proof.
  unfold Navigation.current_path, Navigation.pop.
  split; [|split].
  - destruct (rev (split pathname Page.slash)) as [|last ?]; [reflexivity|].
    now destruct (Page.truthy last) eqn:H.
  - destruct (rev (split pathname Page.slash)) as [|last l] eqn:Hrev;
      [cbn; intuition discriminate|].
    destruct (Page.truthy last); [|cbn; intuition discriminate].
    apply (NameFacts.split_pieces pathname).
    apply in_rev. rewrite Hrev. now left.
  - intros dir name -> Hname.
    rewrite NameFacts.split_app, (DataURLMore.split_without name) by assumption.
    now rewrite rev_app_distr.
Qed.

(** ** The theme *)

Module ThemeFacts.
Import Theme.

Lemma data_theme_save v d : data_theme (save v d) = data_theme d.
Proof. unfold save. now destruct (setItem (localStorage d) key v). Qed.

Lemma prefers_dark_save v d : prefers_dark (save v d) = prefers_dark d.
Proof. unfold save. now destruct (setItem (localStorage d) key v). Qed.

(** A theme that is saved is the one read back. *)
Lemma saved_is_read v d :
  accessible (localStorage d) = true -> full (localStorage d) = false ->
  getItem (localStorage (save v d)) key = Ok (Some v).
Proof.
  intros Ha Hf. unfold save, setItem. rewrite Ha, Hf.
  cbn [negb localStorage]. unfold getItem.
  cbn [accessible items].
  now rewrite ConvertMore.eqb_same.
Qed.

(** A theme that cannot be saved leaves the storage as it was. *)
Lemma unsaved v d :
  accessible (localStorage d) = false \/ full (localStorage d) = true ->
  localStorage (save v d) = localStorage d.
Proof.
  intros H. unfold save, setItem.
  destruct (accessible (localStorage d)), (full (localStorage d));
    try reflexivity.
  destruct H; discriminate.
Qed.

Lemma next_is_set d :
  data_theme (toggleTheme d)
  = Some (if eqb (current_theme d) (js "dark") then js "light" else js "dark").
Proof. unfold toggleTheme. now rewrite data_theme_save. Qed.

End ThemeFacts.

(** X16.  After a toggle the theme is "dark" or "light", whatever it was:
    "light" if it was "dark", and "dark" in every other case.  A second
    toggle therefore gives back "dark" for "dark" but "light" for any other
    theme, and from the first toggle on the theme alternates. *)
Theorem toggleTheme_alternates (d : Theme.Document) :
  Theme.data_theme (Theme.toggleTheme d)
  = Some (if eqb (Theme.current_theme d) (js "dark") then js "light"
          else js "dark") /\
  Theme.data_theme (Theme.toggleTheme (Theme.toggleTheme d))
  = Some (if eqb (Theme.current_theme d) (js "dark") then js "dark"
          else js "light") /\
  Theme.data_theme (Theme.toggleTheme (Theme.toggleTheme (Theme.toggleTheme d)))
  = Theme.data_theme (Theme.toggleTheme d).
Proof.
  assert (Hnext : forall d',
             Theme.current_theme (Theme.toggleTheme d')
             = if eqb (Theme.current_theme d') (js "dark") then js "light"
               else js "dark").
  { intros d'. unfold Theme.current_theme at 1.
    rewrite ThemeFacts.next_is_set.
    now destruct (eqb (Theme.current_theme d') (js "dark")). }
  split; [apply ThemeFacts.next_is_set|].
  split.
  - rewrite ThemeFacts.next_is_set, Hnext.
    now destruct (eqb (Theme.current_theme d) (js "dark")).
  - rewrite !ThemeFacts.next_is_set, !Hnext.
    now destruct (eqb (Theme.current_theme d) (js "dark")).
Qed.

(** X17.  With a storage that can be read and written, the theme chosen
    survives a new page load: after [setTheme] with a theme that is not the
    empty string, and after a toggle, the next load applies that very
    theme, whatever the system prefers. *)
Theorem theme_persists (d : Theme.Document) (theme : jsstring) :
  Theme.accessible (Theme.localStorage d) = true ->
  Theme.full (Theme.localStorage d) = false ->
  Page.truthy theme = true ->
  Theme.data_theme (Theme.reload (Theme.setTheme theme d)) = Some theme /\
  Theme.data_theme (Theme.reload (Theme.toggleTheme d))
  = Theme.data_theme (Theme.toggleTheme d).
Proof.
  intros Ha Hf Htheme.
  assert (Hreload : forall v d',
             Theme.accessible (Theme.localStorage d') = true ->
             Theme.full (Theme.localStorage d') = false ->
             Page.truthy v = true ->
             Theme.data_theme (Theme.reload (Theme.save v d')) = Some v).
  { intros v d' Ha' Hf' Hv. unfold Theme.reload, Theme.applyInitialTheme.
    cbn [Theme.localStorage].
    rewrite (ThemeFacts.saved_is_read v d' Ha' Hf'), Hv. reflexivity. }
  split.
  - unfold Theme.setTheme. now apply Hreload.
  - rewrite ThemeFacts.next_is_set. unfold Theme.toggleTheme.
    apply Hreload; [exact Ha | exact Hf |].
    now destruct (eqb (Theme.current_theme d) (js "dark")).
Qed.

Lemma theme_persists_witness :
  Theme.data_theme (Theme.reload (Theme.setTheme (js "sepia") Sample.document))
  = Some (js "sepia") /\
  Theme.data_theme (Theme.reload (Theme.toggleTheme Sample.document))
  = Theme.data_theme (Theme.toggleTheme Sample.document).
Proof.
  exact (theme_persists Sample.document (js "sepia") eq_refl eq_refl eq_refl).
Defined.

(** X18.  When the theme cannot be saved, because the storage refuses
    access or is full, a toggle or [setTheme] still changes the theme of
    the page, but the next page load comes out as if it had not happened.
    With a storage that refuses access the initial script sets no theme at
    all, not even the one the system prefers. *)
Theorem unsaved_theme_is_lost (d : Theme.Document) (theme : jsstring) :
  Theme.accessible (Theme.localStorage d) = false \/
  Theme.full (Theme.localStorage d) = true ->
  Theme.data_theme (Theme.setTheme theme d) = Some theme /\
  Theme.reload (Theme.setTheme theme d) = Theme.reload d /\
  Theme.reload (Theme.toggleTheme d) = Theme.reload d /\
  (Theme.accessible (Theme.localStorage d) = false ->
   Theme.applyInitialTheme d = d /\
   Theme.data_theme (Theme.reload (Theme.toggleTheme d)) = None).
Proof.
  intros Hfail.
  assert (Hreload : forall v a,
             Theme.reload (Theme.save v (Theme.setAttribute a d))
             = Theme.reload d).
  { intros v a. unfold Theme.reload.
    rewrite ThemeFacts.unsaved by exact Hfail.
    now rewrite ThemeFacts.prefers_dark_save. }
  split; [unfold Theme.setTheme; now rewrite ThemeFacts.data_theme_save|].
  split; [apply Hreload|].
  split; [apply Hreload|].
  intros Ha. split.
  - unfold Theme.applyInitialTheme, Theme.getItem. now rewrite Ha.
  - unfold Theme.toggleTheme. rewrite Hreload.
    unfold Theme.reload, Theme.applyInitialTheme, Theme.getItem.
    cbn [Theme.localStorage]. now rewrite Ha.
Qed.

Lemma unsaved_theme_is_lost_witness :
  Theme.data_theme (Theme.setTheme (js "light") Sample.blocked_document)
  = Some (js "light") /\
  Theme.reload (Theme.setTheme (js "light") Sample.blocked_document)
  = Theme.reload Sample.blocked_document /\
  Theme.reload (Theme.toggleTheme Sample.blocked_document)
  = Theme.reload Sample.blocked_document /\
  (Theme.accessible (Theme.localStorage Sample.blocked_document) = false ->
   Theme.applyInitialTheme Sample.blocked_document = Sample.blocked_document /\
   Theme.data_theme (Theme.reload (Theme.toggleTheme Sample.blocked_document))
   = None).
Proof.
  exact (unsaved_theme_is_lost Sample.blocked_document (js "light")
           (or_introl eq_refl)).
Defined.

(** ** The page: object URLs, the held blob and the download *)

Module PageFacts.
Import Page.

(** The invariant only looks at the two variables of the script that
    concern the blob, the download button, the object URLs and the
    [onload] handler of the first preview. *)
Lemma consistent_ext s s' :
  convertedBlob (script s') = convertedBlob (script s) ->
  convertedURL (script s') = convertedURL (script s) ->
  download_disabled (controls s') = download_disabled (controls s) ->
  object_urls (browser s') = object_urls (browser s) ->
  next_url (browser s') = next_url (browser s) ->
  before_onload (preview s') = before_onload (preview s) ->
  consistent s -> consistent s'.
Proof.
  unfold consistent. intros -> -> -> -> -> ->. exact (fun H => H).
Qed.

Lemma object_of_filter u v l :
  u <> v ->
  object_of u (filter (fun e => negb (fst e =? v)%nat) l) = object_of u l.
Proof.
  intros Huv. induction l as [|[w o] r IH]; [reflexivity|].
  cbn [filter fst object_of].
  destruct (Nat.eqb_spec w v) as [->|Hwv]; cbn [negb].
  - rewrite IH. destruct (Nat.eqb_spec v u); [congruence | reflexivity].
  - cbn [object_of]. now rewrite IH.
Qed.

Lemma in_filter_urls (e : url * object) v l :
  In e (filter (fun e => negb (fst e =? v)%nat) l) -> In e l /\ fst e <> v.
Proof.
  intros H. apply filter_In in H. destruct H as [Hin Hne].
  split; [exact Hin|].
  apply negb_true_iff in Hne. now apply Nat.eqb_neq in Hne.
Qed.

Lemma consistent_loaded c p :
  before_onload p = None -> consistent (loaded c p).
Proof.
  intros Hp. unfold consistent, loaded.
  cbn [script controls preview browser convertedBlob convertedURL
       download_disabled object_urls next_url].
  rewrite Hp. repeat split; try (intros; discriminate).
  all: intros u o; cbn; intros [].
Qed.

Lemma consistent_handleFile h file s :
  consistent s -> consistent (handleFile h file s).
Proof.
  intros Hs. unfold handleFile.
  destruct (negb (startsWith (js "image/") (file_type file))).
  { revert Hs. now apply consistent_ext. }
  destruct Hs as (_ & _ & H3 & H4 & _ & _ & H7).
  unfold consistent, createObjectURL.
  cbn [script controls preview browser convertedBlob convertedURL
       download_disabled object_urls next_url before_onload].
  split; [discriminate|].
  split; [discriminate|].
  split.
  { intros u o [Heq|Hin].
    - injection Heq as <- _. lia.
    - specialize (H3 u o Hin). lia. }
  split; [intros u Hu; specialize (H4 u Hu); lia|].
  split; [intros u Hu; injection Hu as <-; lia|].
  split.
  { intros u Hu Hconv. injection Hu as <-. specialize (H4 _ Hconv). lia. }
  intros u b [Heq|Hin]; [discriminate | now apply (H7 u b)].
Qed.

(** What [converted] leaves behind, on each of its paths. *)
Lemma converted_fields h outType blob s :
  convertedBlob (script (converted h outType blob s)) = Some blob /\
  convertedURL (script (converted h outType blob s)) = Some (next_url (browser s)) /\
  object_urls (browser (converted h outType blob s))
  = (next_url (browser s), BlobObject blob)
    :: match convertedURL (script s) with
       | Some old => filter (fun e => negb (fst e =? old)%nat)
                       (object_urls (browser s))
       | None => object_urls (browser s)
       end /\
  next_url (browser (converted h outType blob s)) = S (next_url (browser s)) /\
  before_onload (preview (converted h outType blob s))
  = before_onload (preview s).
Proof.
  unfold converted. cbv zeta.
  destruct (index (split outType slash) 1) as [subtype|];
    [cbn [script currentFile]; destruct (currentFile (script s))|];
    destruct (convertedURL (script s));
    repeat split; reflexivity.
Qed.

Lemma consistent_converted h outType blob s :
  consistent s -> consistent (converted h outType blob s).
Proof.
  intros (_ & _ & H3 & H4 & H5 & _ & H7).
  destruct (converted_fields h outType blob s) as (E1 & E2 & E3 & E4 & E5).
  unfold consistent. rewrite E1, E2, E3, E4, E5.
  split.
  { intros b Hb. injection Hb as <-. eexists. split; [reflexivity|].
    cbn [object_of]. now rewrite Nat.eqb_refl. }
  split; [discriminate|].
  split.
  { intros u o [Heq|Hin].
    - injection Heq as <- _. lia.
    - assert (In (u, o) (object_urls (browser s))) as Hold.
      { destruct (convertedURL (script s)); [|exact Hin].
        now apply in_filter_urls in Hin. }
      specialize (H3 u o Hold). lia. }
  split; [intros u Hu; injection Hu as <-; lia|].
  split; [intros u Hu; specialize (H5 u Hu); lia|].
  split.
  { intros u Hu Hconv. injection Hconv as <-. specialize (H5 _ Hu). lia. }
  intros u b [Heq|Hin].
  - now injection Heq as <- _.
  - exfalso. destruct (convertedURL (script s)) as [old|] eqn:Hold.
    + apply in_filter_urls in Hin. destruct Hin as [Hin Hne].
      specialize (H7 u b Hin). cbn [fst] in Hne. congruence.
    + specialize (H7 u b Hin). discriminate.
Qed.

Lemma consistent_convert_settled h p s :
  consistent s -> consistent (convert_settled h p s).
Proof.
  intros Hs. unfold convert_settled.
  apply (consistent_ext
           (match settled (convertImageFile (runtime h) (file_bytes (pending_file p))
                             (pending_outType p) (Some (pending_quality p))
                             (Some (pending_scale p))) with
            | Resolved blob => converted h (pending_outType p) blob s
            | Rejected e => caught e s
            end)); try reflexivity.
  destruct (settled _) as [blob|e].
  - now apply consistent_converted.
  - revert Hs. now apply consistent_ext.
Qed.

Lemma consistent_before_loaded u s :
  before_onload (preview s) = Some u ->
  consistent s ->
  consistent {| script := script s; controls := controls s; preview := preview s;
                browser := revokeObjectURL u (browser s) |}.
Proof.
  intros Hu (H1 & H2 & H3 & H4 & H5 & H6 & H7).
  unfold consistent, revokeObjectURL.
  cbn [script controls preview browser object_urls next_url].
  split.
  { intros b Hb. destruct (H1 b Hb) as (v & Hv & Hobj).
    exists v. split; [exact Hv|].
    rewrite object_of_filter; [exact Hobj|].
    intros ->. exact (H6 u Hu Hv). }
  split; [exact H2|].
  split.
  { intros v o Hin. apply in_filter_urls in Hin. now apply (H3 v o). }
  split; [exact H4|].
  split; [exact H5|].
  split; [exact H6|].
  intros v b Hin. apply in_filter_urls in Hin. now apply (H7 v b).
Qed.

(** An object URL made for a file leaves the invariant as it is. *)
Lemma consistent_file_url f s s' :
  convertedBlob (script s') = convertedBlob (script s) ->
  convertedURL (script s') = convertedURL (script s) ->
  download_disabled (controls s') = download_disabled (controls s) ->
  object_urls (browser s')
  = (next_url (browser s), FileObject f) :: object_urls (browser s) ->
  next_url (browser s') = S (next_url (browser s)) ->
  before_onload (preview s') = before_onload (preview s) ->
  consistent s -> consistent s'.
Proof.
  intros E1 E2 E3 E4 E5 E6 (H1 & H2 & H3 & H4 & H5 & H6 & H7).
  unfold consistent. rewrite E1, E2, E3, E4, E5, E6.
  split.
  { intros b Hb. destruct (H1 b Hb) as (u & Hu & Hobj).
    exists u. split; [exact Hu|].
    cbn [object_of]. specialize (H4 u Hu).
    destruct (Nat.eqb_spec (next_url (browser s)) u); [lia | exact Hobj]. }
  split; [exact H2|].
  split.
  { intros u o [Heq|Hin].
    - injection Heq as <- _. lia.
    - specialize (H3 u o Hin). lia. }
  split; [intros u Hu; specialize (H4 u Hu); lia|].
  split; [intros u Hu; specialize (H5 u Hu); lia|].
  split; [exact H6|].
  intros u b [Heq|Hin]; [discriminate | now apply (H7 u b)].
Qed.

Lemma consistent_step h e s : consistent s -> consistent (step h e s).
Proof.
  intros Hs. destruct e as [files|files|items|v|v|v| |k| |]; cbn [step].
  - destruct files; [exact Hs | now apply consistent_handleFile].
  - destruct files; [exact Hs | now apply consistent_handleFile].
  - destruct (pasted_file items); [now apply consistent_handleFile | exact Hs].
  - revert Hs. now apply consistent_ext.
  - revert Hs. now apply consistent_ext.
  - revert Hs. now apply consistent_ext.
  - unfold convert_click. destruct (currentFile (script s)) as [f|]; [|exact Hs].
    revert Hs. now apply (consistent_file_url f).
  - destruct (nth_error (pending (browser s)) k) as [p|]; [|exact Hs].
    apply consistent_convert_settled. revert Hs. now apply consistent_ext.
  - unfold download_click. destruct (convertedBlob (script s)); [|exact Hs].
    revert Hs. now apply consistent_ext.
  - destruct (before_onload (preview s)) as [u|] eqn:Hu; [|exact Hs].
    now apply consistent_before_loaded.
Qed.

Lemma consistent_run_events h events s :
  consistent s -> consistent (run_events h events s).
Proof.
  unfold run_events. revert s.
  induction events as [|e events IH]; intros s Hs; [exact Hs|].
  cbn [fold_left]. apply IH. now apply consistent_step.
Qed.

(** The path of [converted] on which nothing throws. *)
Lemma converted_success h outType blob s subtype current :
  index (split outType slash) 1 = Some subtype ->
  currentFile (script s) = Some current ->
  download_disabled (controls (converted h outType blob s)) = false /\
  currentFile (script (converted h outType blob s)) = Some current /\
  downloads (browser (converted h outType blob s)) = downloads (browser s) /\
  file_size_text (preview (converted h outType blob s))
  = js "Before: " ++ bytesToSize h (file_size current)
    ++ js " " ++ bullet ++ js " After: " ++ bytesToSize h (blob_size h blob).
Proof.
  intros Hsub Hcur. unfold converted. cbv zeta. rewrite Hsub.
  cbn [script currentFile]. rewrite Hcur.
  destruct (convertedURL (script s)); repeat split; reflexivity.
Qed.

Lemma settle_resolved h s k p blob :
  nth_error (pending (browser s)) k = Some p ->
  settled (convertImageFile (runtime h) (file_bytes (pending_file p))
             (pending_outType p) (Some (pending_quality p))
             (Some (pending_scale p)))
  = Resolved blob ->
  step h (Settle k) s
  = finally_convert
      (converted h (pending_outType p) blob
         {| script := script s; controls := controls s; preview := preview s;
            browser := set_pending (remove_nth k (pending (browser s)))
                         (browser s) |}).
Proof.
  intros Hnth Hsettled. cbn [step]. rewrite Hnth.
  unfold convert_settled. now rewrite Hsettled.
Qed.

End PageFacts.

(** X19.  From the loading of the page on, whatever the user does and in
    whatever order conversions settle: whenever the download button is
    enabled the script holds a converted blob and a live object URL that
    names that very blob; and the only object URL of a converted blob that
    is live is the one the script holds, the one of each earlier result
    having been revoked.  (The object URLs made for files, as sources of
    the preview and of the conversions, are another matter: X21, X22.) *)
Theorem download_is_backed (h : Page.Host) (c : Page.Controls)
  (p : Page.Preview) (events : list Page.event) :
  Page.before_onload p = None ->
  (Page.download_disabled
     (Page.controls (Page.run_events h events (Page.loaded c p))) = false ->
   exists blob u,
     Page.convertedBlob (Page.script (Page.run_events h events (Page.loaded c p)))
     = Some blob /\
     Page.convertedURL (Page.script (Page.run_events h events (Page.loaded c p)))
     = Some u /\
     Page.object_of u
       (Page.object_urls (Page.browser (Page.run_events h events (Page.loaded c p))))
     = Some (Page.BlobObject blob)) /\
  (forall u blob,
      In (u, Page.BlobObject blob)
        (Page.object_urls (Page.browser (Page.run_events h events (Page.loaded c p)))) ->
      Page.convertedURL (Page.script (Page.run_events h events (Page.loaded c p)))
      = Some u).
Proof.
  intros Hp.
  pose proof (PageFacts.consistent_run_events h events _
                (PageFacts.consistent_loaded c p Hp))
    as (H1 & H2 & _ & _ & _ & _ & H7).
  split; [|exact H7].
  intros Henabled. specialize (H2 Henabled).
  destruct (Page.convertedBlob (Page.script _)) as [blob|] eqn:Hblob;
    [|congruence].
  destruct (H1 blob eq_refl) as (u & Hu & Hobj).
  now exists blob, u.
Qed.

Lemma download_is_backed_witness :
  exists blob u,
    Page.convertedBlob
      (Page.script
         (Page.run_events (Sample.host Reference.browser)
            [Page.Drop [Sample.photo]; Page.Click_convert; Page.Settle 0;
             Page.Before_loaded]
            (Page.loaded Sample.controls Sample.preview)))
    = Some blob /\
    Page.convertedURL
      (Page.script
         (Page.run_events (Sample.host Reference.browser)
            [Page.Drop [Sample.photo]; Page.Click_convert; Page.Settle 0;
             Page.Before_loaded]
            (Page.loaded Sample.controls Sample.preview)))
    = Some u /\
    Page.object_of u
      (Page.object_urls
         (Page.browser
            (Page.run_events (Sample.host Reference.browser)
               [Page.Drop [Sample.photo]; Page.Click_convert; Page.Settle 0;
                Page.Before_loaded]
               (Page.loaded Sample.controls Sample.preview))))
    = Some (Page.BlobObject blob).
Proof.
  exact (proj1 (download_is_backed (Sample.host Reference.browser)
                  Sample.controls Sample.preview
                  [Page.Drop [Sample.photo]; Page.Click_convert; Page.Settle 0;
                   Page.Before_loaded]
                  eq_refl)
           eq_refl).
Defined.

(** X20.  When a conversion settles with a blob (and its output type has
    a slash), the download button is enabled, and a download then offers
    that blob under a name made from the file that is current and the
    format that is selected at the time of the click, whichever file the
    blob was converted from and whichever format it was converted to. *)
Theorem download_after_settle (h : Page.Host) (s : Page.State) (k : nat)
  (p : Page.Pending) (blob : Blob) (subtype : jsstring)
  (current : Page.UserFile) (v : jsstring) :
  nth_error (Page.pending (Page.browser s)) k = Some p ->
  settled (convertImageFile (Page.runtime h)
             (Page.file_bytes (Page.pending_file p)) (Page.pending_outType p)
             (Some (Page.pending_quality p)) (Some (Page.pending_scale p)))
  = Resolved blob ->
  index (split (Page.pending_outType p) Page.slash) 1 = Some subtype ->
  Page.currentFile (Page.script s) = Some current ->
  exists u,
    Page.download_disabled (Page.controls (Page.step h (Page.Settle k) s)) = false /\
    Page.downloads
      (Page.browser
         (Page.run_events h
            [Page.Settle k; Page.Select_format v; Page.Click_download] s))
    = (Page.download_filename v (Some current), Some u)
      :: Page.downloads (Page.browser s) /\
    Page.object_of u
      (Page.object_urls
         (Page.browser
            (Page.run_events h
               [Page.Settle k; Page.Select_format v; Page.Click_download] s)))
    = Some (Page.BlobObject blob).
Proof.
  intros Hnth Hsettled Hsub Hcur.
  exists (Page.next_url (Page.browser s)).
  unfold Page.run_events. cbn [fold_left].
  rewrite (PageFacts.settle_resolved h s k p blob Hnth Hsettled).
  set (s0 := {| Page.script := Page.script s; Page.controls := Page.controls s;
                Page.preview := Page.preview s;
                Page.browser :=
                  Page.set_pending
                    (Page.remove_nth k (Page.pending (Page.browser s)))
                    (Page.browser s) |}).
  destruct (PageFacts.converted_fields h (Page.pending_outType p) blob s0)
    as (Eblob & Eurl & Eurls & _ & _).
  destruct (PageFacts.converted_success h (Page.pending_outType p) blob s0
              subtype current Hsub Hcur)
    as (Edisabled & Ecurrent & Edownloads & _).
  generalize dependent (Page.converted h (Page.pending_outType p) blob s0).
  intros s1 Eblob Eurl Eurls Edisabled Ecurrent Edownloads.
  cbn [Page.step].
  unfold Page.download_click, Page.set_controls, Page.finally_convert.
  cbn [Page.script Page.controls Page.download_disabled].
  rewrite Eblob, Eurl, Ecurrent.
  cbn [Page.browser Page.downloads Page.object_urls Page.controls
       Page.format_value].
  rewrite Edownloads, Eurls.
  split; [exact Edisabled|].
  split; [reflexivity|].
  cbn [Page.object_of]. now rewrite Nat.eqb_refl.
Qed.

Lemma download_after_settle_witness :
  exists u,
    Page.download_disabled
      (Page.controls
         (Page.step (Sample.host Reference.browser) (Page.Settle 0)
            (Page.run_events (Sample.host Reference.browser)
               [Page.Drop [Sample.photo]; Page.Click_convert;
                Page.Drop [Sample.logo]] Sample.page)))
    = false /\
    Page.downloads
      (Page.browser
         (Page.run_events (Sample.host Reference.browser)
            [Page.Settle 0; Page.Select_format (js "image/jpeg");
             Page.Click_download]
            (Page.run_events (Sample.host Reference.browser)
               [Page.Drop [Sample.photo]; Page.Click_convert;
                Page.Drop [Sample.logo]] Sample.page)))
    = [(js "logo.jpeg", Some u)] /\
    Page.object_of u
      (Page.object_urls
         (Page.browser
            (Page.run_events (Sample.host Reference.browser)
               [Page.Settle 0; Page.Select_format (js "image/jpeg");
                Page.Click_download]
               (Page.run_events (Sample.host Reference.browser)
                  [Page.Drop [Sample.photo]; Page.Click_convert;
                   Page.Drop [Sample.logo]] Sample.page))))
    = Some (Page.BlobObject
              {| blob_parts := [BufferPart Reference.four_pixels];
                 blob_type := js "image/png" |}).
Proof.
  exact (download_after_settle (Sample.host Reference.browser)
           (Page.run_events (Sample.host Reference.browser)
              [Page.Drop [Sample.photo]; Page.Click_convert;
               Page.Drop [Sample.logo]] Sample.page)
           0
           {| Page.pending_file := Sample.photo;
              Page.pending_outType := js "image/png";
              Page.pending_quality := Finite (80 / 100);
              Page.pending_scale := Finite (100 / 100) |}
           {| blob_parts := [BufferPart Reference.four_pixels];
              blob_type := js "image/png" |}
           (js "png") Sample.logo (js "image/jpeg")
           eq_refl eq_refl eq_refl eq_refl).
Defined.

Module LeakFacts.
Import Page PageFacts.

(** What an event does to the object URLs, the URL of the blob and the
    [onload] handler: nothing; or a URL for a file is created, for the
    preview (and the handler is to revoke it) or as the source of a
    conversion (and nothing is); or the URL of the blob is replaced; or
    the handler runs. *)
Lemma step_urls h e s :
  (object_urls (browser (step h e s)) = object_urls (browser s) /\
   next_url (browser (step h e s)) = next_url (browser s) /\
   convertedURL (script (step h e s)) = convertedURL (script s) /\
   before_onload (preview (step h e s)) = before_onload (preview s)) \/
  (exists f,
      object_urls (browser (step h e s))
      = (next_url (browser s), FileObject f) :: object_urls (browser s) /\
      next_url (browser (step h e s)) = S (next_url (browser s)) /\
      convertedURL (script (step h e s)) = convertedURL (script s) /\
      (before_onload (preview (step h e s)) = Some (next_url (browser s)) \/
       before_onload (preview (step h e s)) = before_onload (preview s))) \/
  (exists b,
      object_urls (browser (step h e s))
      = (next_url (browser s), BlobObject b)
        :: match convertedURL (script s) with
           | Some old => filter (fun e => negb (fst e =? old)%nat)
                           (object_urls (browser s))
           | None => object_urls (browser s)
           end /\
      next_url (browser (step h e s)) = S (next_url (browser s)) /\
      convertedURL (script (step h e s)) = Some (next_url (browser s)) /\
      before_onload (preview (step h e s)) = before_onload (preview s)) \/
  (exists u,
      before_onload (preview s) = Some u /\
      object_urls (browser (step h e s))
      = filter (fun e => negb (fst e =? u)%nat) (object_urls (browser s)) /\
      next_url (browser (step h e s)) = next_url (browser s) /\
      convertedURL (script (step h e s)) = convertedURL (script s) /\
      before_onload (preview (step h e s)) = before_onload (preview s)).
Proof.
  assert (Hfile : forall file,
    (object_urls (browser (handleFile h file s)) = object_urls (browser s) /\
     next_url (browser (handleFile h file s)) = next_url (browser s) /\
     convertedURL (script (handleFile h file s)) = convertedURL (script s) /\
     before_onload (preview (handleFile h file s)) = before_onload (preview s)) \/
    (exists f,
      object_urls (browser (handleFile h file s))
      = (next_url (browser s), FileObject f) :: object_urls (browser s) /\
      next_url (browser (handleFile h file s)) = S (next_url (browser s)) /\
      convertedURL (script (handleFile h file s)) = convertedURL (script s) /\
      (before_onload (preview (handleFile h file s)) = Some (next_url (browser s)) \/
       before_onload (preview (handleFile h file s)) = before_onload (preview s)))).
  { intros file. unfold handleFile.
    destruct (negb (startsWith (js "image/") (file_type file))).
    - left. now repeat split.
    - right. exists file. repeat split. now left. }
  assert (Hsame : forall s', s' = s -> 
    object_urls (browser s') = object_urls (browser s) /\
    next_url (browser s') = next_url (browser s) /\
    convertedURL (script s') = convertedURL (script s) /\
    before_onload (preview s') = before_onload (preview s)).
  { now intros s' ->. }
  destruct e as [files|files|items|v|v|v| |k| |]; cbn [step].
  - destruct files as [|file ?]; [left; now apply Hsame|].
    cbn [first_file]. destruct (Hfile file) as [H|H]; [now left | right; now left].
  - destruct files as [|file ?]; [left; now apply Hsame|].
    cbn [first_file]. destruct (Hfile file) as [H|H]; [now left | right; now left].
  - destruct (pasted_file items) as [file|]; [|left; now apply Hsame].
    destruct (Hfile file) as [H|H]; [now left | right; now left].
  - left. now repeat split.
  - left. now repeat split.
  - left. now repeat split.
  - unfold convert_click.
    destruct (currentFile (script s)) as [f|]; [|left; now repeat split].
    right; left. exists f. repeat split. now right.
  - destruct (nth_error (pending (browser s)) k) as [p|]; [|left; now apply Hsame].
    unfold convert_settled.
    destruct (settled _) as [blob|e].
    + right; right; left. exists blob.
      destruct (converted_fields h (pending_outType p) blob
                  {| script := script s; controls := controls s;
                     preview := preview s;
                     browser := set_pending (remove_nth k (pending (browser s)))
                                  (browser s) |})
        as (_ & E2 & E3 & E4 & E5).
      unfold finally_convert. cbn [script controls preview browser].
      rewrite E2, E3, E4, E5. now repeat split.
    + left. now repeat split.
  - left. unfold download_click.
    destruct (convertedBlob (script s)); now repeat split.
  - destruct (before_onload (preview s)) as [u|] eqn:Hu; [|left; now apply Hsame].
    right; right; right. exists u. now repeat split.
Qed.

Lemma object_of_in u o l : object_of u l = Some o -> In (u, o) l.
Proof.
  induction l as [|[v o'] r IH]; [discriminate|].
  cbn [object_of]. destruct (Nat.eqb_spec v u) as [->|_].
  - intros H. injection H as ->. now left.
  - intros H. right. now apply IH.
Qed.

Lemma numbered_step h e s : numbered s -> numbered (step h e s).
Proof.
  intros (H1 & H2 & H3). unfold numbered.
  destruct (step_urls h e s)
    as [(E1 & E2 & E3 & _)
       |[(f & E1 & E2 & E3 & _)
        |[(b & E1 & E2 & E3 & _) | (u & _ & E1 & E2 & E3 & _)]]];
    rewrite E1, E2, E3.
  - now repeat split.
  - split; [|split].
    + intros v o [Heq|Hin]; [injection Heq as <- _; lia|].
      specialize (H1 v o Hin). lia.
    + intros v Hv. specialize (H2 v Hv). lia.
    + intros v g [Heq|Hin] Hv.
      * injection Heq as <- _. specialize (H2 _ Hv). lia.
      * exact (H3 v g Hin Hv).
  - assert (Hsub : forall e',
              In e' match convertedURL (script s) with
                    | Some old => filter (fun e => negb (fst e =? old)%nat)
                                    (object_urls (browser s))
                    | None => object_urls (browser s)
                    end -> In e' (object_urls (browser s))).
    { intros e'. destruct (convertedURL (script s)); [|trivial].
      intros Hin. now apply in_filter_urls in Hin. }
    split; [|split].
    + intros v o [Heq|Hin]; [injection Heq as <- _; lia|].
      specialize (H1 v o (Hsub _ Hin)). lia.
    + intros v Hv. injection Hv as <-. lia.
    + intros v g [Heq|Hin] Hv; [discriminate|].
      injection Hv as <-. specialize (H1 _ _ (Hsub _ Hin)). lia.
  - split; [|split].
    + intros v o Hin. apply in_filter_urls in Hin. now apply (H1 v o).
    + exact H2.
    + intros v g Hin. apply in_filter_urls in Hin. now apply (H3 v g).
Qed.

Lemma numbered_run_events h events s :
  numbered s -> numbered (run_events h events s).
Proof.
  unfold run_events. revert s.
  induction events as [|e events IH]; intros s Hs; [exact Hs|].
  cbn [fold_left]. apply IH. now apply numbered_step.
Qed.

Lemma numbered_loaded c p : numbered (loaded c p).
Proof.
  unfold numbered, loaded. cbn [script browser object_urls convertedURL].
  repeat split; try (intros; discriminate).
  all: intros u o; cbn; intros [].
Qed.

Lemma kept_step h e u f s :
  numbered s -> kept u f s -> kept u f (step h e s).
Proof.
  intros (H1 & H2 & H3) (Hlive & Hhandler).
  pose proof (object_of_in _ _ _ Hlive) as Hin.
  pose proof (H1 _ _ Hin) as Hlt.
  unfold kept.
  destruct (step_urls h e s)
    as [(E1 & _ & _ & E4)
       |[(g & E1 & _ & _ & E4)
        |[(b & E1 & _ & _ & E4) | (v & Hv & E1 & _ & _ & E4)]]];
    rewrite E1; try rewrite E4.
  - now split.
  - split.
    + cbn [object_of]. destruct (Nat.eqb_spec (next_url (browser s)) u); [lia|].
      exact Hlive.
    + destruct E4 as [E4|E4]; rewrite E4; [|exact Hhandler].
      intros H. injection H as H. lia.
  - split; [|exact Hhandler].
    cbn [object_of]. destruct (Nat.eqb_spec (next_url (browser s)) u); [lia|].
    destruct (convertedURL (script s)) as [old|] eqn:Hold; [|exact Hlive].
    rewrite object_of_filter; [exact Hlive|].
    intros ->. exact (H3 _ _ Hin eq_refl).
  - split; [|exact Hhandler].
    rewrite object_of_filter; [exact Hlive|].
    intros ->. exact (Hhandler Hv).
Qed.

Lemma kept_run_events h events u f s :
  numbered s -> kept u f s -> kept u f (run_events h events s).
Proof.
  unfold run_events. revert s.
  induction events as [|e events IH]; intros s Hn Hk; [exact Hk|].
  cbn [fold_left]. apply IH; [now apply numbered_step | now apply kept_step].
Qed.

End LeakFacts.

(** X21.  When a second image file is handled before the preview of the
    first has loaded, the object URL created for the first file is never
    revoked: it is still live, and still names the first file, after any
    further events. *)
Theorem superseded_preview_url_stays (h : Page.Host) (c : Page.Controls)
  (p : Page.Preview) (earlier : list Page.event) (first second : Page.UserFile) :
  startsWith (js "image/") (Page.file_type first) = true ->
  startsWith (js "image/") (Page.file_type second) = true ->
  exists u,
    forall later,
      Page.object_of u
        (Page.object_urls
           (Page.browser
              (Page.run_events h
                 (earlier ++ [Page.Drop [first]; Page.Drop [second]] ++ later)
                 (Page.loaded c p))))
      = Some (Page.FileObject first).
Proof.
  intros Hfirst Hsecond.
  pose proof (LeakFacts.numbered_run_events h earlier _
                (LeakFacts.numbered_loaded c p)) as Hn.
  set (s := Page.run_events h earlier (Page.loaded c p)) in *.
  exists (Page.next_url (Page.browser s)).
  intros later.
  unfold Page.run_events. rewrite !fold_left_app.
  fold (Page.run_events h earlier (Page.loaded c p)). fold s.
  fold (Page.run_events h later
          (fold_left (fun s e => Page.step h e s)
             [Page.Drop [first]; Page.Drop [second]] s)).
  apply LeakFacts.kept_run_events.
  - cbn [fold_left].
    now apply LeakFacts.numbered_step, LeakFacts.numbered_step.
  - cbn [fold_left Page.step Page.first_file].
    unfold Page.handleFile at 1. rewrite Hsecond. cbn [negb].
    unfold Page.handleFile. rewrite Hfirst. cbn [negb].
    unfold Page.kept, Page.createObjectURL.
    cbn [Page.browser Page.preview Page.object_urls Page.next_url
         Page.before_onload Page.object_of].
    split.
    + destruct (Nat.eqb_spec (S (Page.next_url (Page.browser s)))
                  (Page.next_url (Page.browser s))); [lia|].
      now rewrite Nat.eqb_refl.
    + intros H. injection H as H. lia.
Qed.

Lemma superseded_preview_url_stays_witness :
  exists u,
    forall later,
      Page.object_of u
        (Page.object_urls
           (Page.browser
              (Page.run_events (Sample.host Reference.browser)
                 ([] ++ [Page.Drop [Sample.photo]; Page.Drop [Sample.logo]] ++ later)
                 (Page.loaded Sample.controls Sample.preview))))
      = Some (Page.FileObject Sample.photo).
Proof.
  exact (superseded_preview_url_stays (Sample.host Reference.browser)
           Sample.controls Sample.preview [] Sample.photo Sample.logo
           eq_refl eq_refl).
Defined.

(** X22.  Every click on the convert button with a file at hand creates an
    object URL for that file, as the source of the image to convert, and
    nothing ever revokes it: it is still live, and still names the file,
    after any further events. *)
Theorem conversion_source_url_stays (h : Page.Host) (c : Page.Controls)
  (p : Page.Preview) (earlier : list Page.event) (file : Page.UserFile) :
  Page.before_onload p = None ->
  Page.currentFile (Page.script (Page.run_events h earlier (Page.loaded c p)))
  = Some file ->
  exists u,
    forall later,
      Page.object_of u
        (Page.object_urls
           (Page.browser
              (Page.run_events h (earlier ++ Page.Click_convert :: later)
                 (Page.loaded c p))))
      = Some (Page.FileObject file).
Proof.
  intros Hp Hfile.
  pose proof (LeakFacts.numbered_run_events h earlier _
                (LeakFacts.numbered_loaded c p)) as Hn.
  pose proof (PageFacts.consistent_run_events h earlier _
                (PageFacts.consistent_loaded c p Hp))
    as (_ & _ & _ & _ & Hhandler & _).
  set (s := Page.run_events h earlier (Page.loaded c p)) in *.
  exists (Page.next_url (Page.browser s)).
  intros later.
  unfold Page.run_events. rewrite fold_left_app.
  fold (Page.run_events h earlier (Page.loaded c p)). fold s.
  cbn [fold_left].
  fold (Page.run_events h later (Page.step h Page.Click_convert s)).
  apply LeakFacts.kept_run_events.
  - now apply LeakFacts.numbered_step.
  - cbn [Page.step]. unfold Page.convert_click. rewrite Hfile.
    unfold Page.kept, Page.createObjectURL, Page.set_pending.
    cbn [Page.browser Page.preview Page.object_urls Page.next_url
         Page.object_of].
    split; [now rewrite Nat.eqb_refl|].
    intros H. specialize (Hhandler _ H). lia.
Qed.

Lemma conversion_source_url_stays_witness :
  exists u,
    forall later,
      Page.object_of u
        (Page.object_urls
           (Page.browser
              (Page.run_events (Sample.host Reference.browser)
                 ([Page.Drop [Sample.photo]] ++ Page.Click_convert :: later)
                 (Page.loaded Sample.controls Sample.preview))))
      = Some (Page.FileObject Sample.photo).
Proof.
  exact (conversion_source_url_stays (Sample.host Reference.browser)
           Sample.controls Sample.preview [Page.Drop [Sample.photo]]
           Sample.photo eq_refl eq_refl).
Defined.
